(** * gpNvm: a non-volatile attribute store emulated on a file

    Shallow embedding of [gpNvm.c] / [gpNvm.h] and verification of its
    behaviour: checksum, lifecycle ([gpNvm_Init], [gpNvm_Uninit]), reader
    ([gpNvm_GetAttribute]) and writer ([gpNvm_SetAttribute]).

    Conventions of the embedding.
    - [UInt8] and [UInt16] values are integers in [Z]; every narrowing
      conversion of the C code is written out ([to_UInt8], [to_UInt16]).
    - The three static arrays are lists; an access outside an array is
      undefined behaviour in C and is modelled by [None].
    - The file behind [gpNvm_FileDescriptor] is a byte list together with
      the stream position; every [fwrite] is also recorded in a log. *)

From Stdlib Require Import ZArith Lia.
From stdpp Require Import base tactics option list.

Local Open Scope Z_scope.

(** ** gpNvm.h *)

Definition GPNVM_MEMORY_SIZE : Z := 2048.

Inductive gpNvm_Result : Set :=
  | GPNVM_OK
  | GPNVM_ERROR_OPENING_FILE
  | GPNVM_ERROR_ALREADY_INITIALIZED
  | GPNVM_ERROR_NOT_INITIALIZED
  | GPNVM_ERROR_INVALID_PARAMETERS
  | GPNVM_ERROR_INVALID_ATTRIBUTE_ID
  | GPNVM_ERROR_CORRUPTED_ATTRIBUTE
  | GPNVM_ERROR_MEMORY_FULL
  | GPNVM_ERROR_UNKNOWN.

#[global] Instance gpNvm_Result_eq_dec : EqDecision gpNvm_Result.
Proof. solve_decision. Defined.

(** ** Macros and constants of gpNvm.c *)

Definition sizeof_UInt16 : Z := 2.
Definition GPNVM_MEMORY_INDEX_TABLE_SIZE : Z := 256.
Definition GPNVM_ATTRIBUTES_CRCS_SIZE : Z := 256.
Definition GPNVM_USER_MEMORY_SIZE : Z :=
  GPNVM_MEMORY_SIZE
  - (sizeof_UInt16 * GPNVM_MEMORY_INDEX_TABLE_SIZE + GPNVM_ATTRIBUTES_CRCS_SIZE).

(** Conversions to the unsigned C types. *)
Definition to_UInt8 (z : Z) : Z := z mod 256.
Definition to_UInt16 (z : Z) : Z := z mod 65536.

Definition is_UInt8 (z : Z) : Prop := 0 <= z < 256.
Definition is_UInt16 (z : Z) : Prop := 0 <= z < 65536.

(** ** Arrays and memory blocks *)

Module Mem.

(** [a[i]] as an rvalue. *)
Definition get (a : list Z) (i : Z) : option Z :=
  if decide (0 <= i) then a !! Z.to_nat i else None.

(** [a[i] = x]. *)
Definition set (a : list Z) (i x : Z) : option (list Z) :=
  if decide (0 <= i < Z.of_nat (length a)) then Some (<[Z.to_nat i := x]> a)
  else None.

(** The [n] bytes found at [&a[off]]: what [memcmp], [memcpy] (as a
    source) and the checksum read.  [off] may be one past the end when
    [n = 0]. *)
Definition load (a : list Z) (off n : Z) : option (list Z) :=
  if decide (0 <= off /\ 0 <= n /\ off + n <= Z.of_nat (length a))
  then Some (take (Z.to_nat n) (drop (Z.to_nat off) a))
  else None.

(** [memcpy(&a[off], src, |src|)]. *)
Definition memcpy (a : list Z) (off : Z) (src : list Z) : option (list Z) :=
  if decide (0 <= off /\ off + Z.of_nat (length src) <= Z.of_nat (length a))
  then Some (take (Z.to_nat off) a ++ src
             ++ drop (Z.to_nat off + length src) a)
  else None.

(** [memset(a, c, n)] on a byte array. *)
Definition memset (c : Z) (n : Z) : list Z := replicate (Z.to_nat n) c.

(** Object representation of a [UInt16] array (host byte order, least
    significant byte first) and the way back. *)
Fixpoint bytes_of_UInt16s (ws : list Z) : list Z :=
  match ws with
  | [] => []
  | w :: ws' => w mod 256 :: (w / 256) mod 256 :: bytes_of_UInt16s ws'
  end.

Fixpoint UInt16s_of_bytes (bs : list Z) : list Z :=
  match bs with
  | lo :: hi :: bs' => (lo + 256 * hi) :: UInt16s_of_bytes bs'
  | _ => []
  end.

End Mem.

(** ** gpNvm_CalculateChecksum *)

(** One turn of the inner [for (j = 0; j < 8; j++)] loop. *)
Definition crc8_shift (crc : Z) : Z :=
  if decide (Z.land crc 0x80 ≠ 0)
  then to_UInt8 (Z.lxor (Z.shiftl crc 1) 0x31)
  else to_UInt8 (Z.shiftl crc 1).

(** One turn of the outer loop: [crc ^= ptr[i]] and eight shifts. *)
Definition crc8_byte (crc b : Z) : Z :=
  Nat.iter 8 crc8_shift (to_UInt8 (Z.lxor crc b)).

(** [gpNvm_CalculateChecksum(ptr, length)], where the argument is the
    list of the [length] bytes at [ptr], taken in increasing address
    order; the accumulator starts at [0xFF]. *)
Definition gpNvm_CalculateChecksum (data : list Z) : Z :=
  foldl crc8_byte 0xFF data.

(** One shift can be undone: the result is odd exactly when the
    polynomial was added. *)
Definition crc8_unshift (crc : Z) : Z :=
  if decide (Z.land crc 1 ≠ 0)
  then Z.lor (Z.shiftr (Z.lxor crc 0x31) 1) 0x80
  else Z.shiftr crc 1.

(** ** The file emulating the non-volatile memory *)

Module Stdio.

(** The file [GPNVM_FILE_NAME] and the stream opened on it.
    [content = None]: the file does not exist.  [creatable] tells
    whether [fopen(.., "wb")] can create it.  [fwrites] logs each
    [fwrite] as (offset, number of bytes), most recent first. *)
Record file : Type := mkFile {
  content : option (list Z);
  position : Z;
  creatable : bool;
  fwrites : list (Z * Z)
}.

Definition bytes (f : file) : list Z := default [] (content f).

(** [fopen(GPNVM_FILE_NAME, "r+b")]: [None] stands for a NULL result. *)
Definition fopen_rb_plus (f : file) : option file :=
  match content f with
  | Some bs => Some (mkFile (Some bs) 0 (creatable f) (fwrites f))
  | None => None
  end.

(** [fopen(GPNVM_FILE_NAME, "wb")]: creates the file, or truncates it. *)
Definition fopen_wb (f : file) : option file :=
  if creatable f then Some (mkFile (Some []) 0 true (fwrites f)) else None.

Definition fseek_SET (off : Z) (f : file) : file :=
  mkFile (content f) off (creatable f) (fwrites f).

Definition fseek_END (f : file) : file :=
  mkFile (content f) (Z.of_nat (length (bytes f))) (creatable f) (fwrites f).

Definition ftell (f : file) : Z := position f.

(** Bytes of the file after writing [data] at [pos]; a write beyond the
    end of the file fills the gap with zero bytes. *)
Definition overwrite (pos : nat) (data old : list Z) : list Z :=
  take pos old ++ replicate (pos - length old) 0 ++ data
  ++ drop (pos + length data) old.

(** [fwrite(data, |data|, 1, stream)]. *)
Definition fwrite (data : list Z) (f : file) : file :=
  mkFile (Some (overwrite (Z.to_nat (position f)) data (bytes f)))
         (position f + Z.of_nat (length data))
         (creatable f)
         ((position f, Z.of_nat (length data)) :: fwrites f).

(** [fread(buf, n, 1, stream)]: the bytes obtained (fewer than [n] when
    the file is too short) and the stream afterwards. *)
Definition fread (n : Z) (f : file) : list Z * file :=
  let got := take (Z.to_nat n) (drop (Z.to_nat (position f)) (bytes f)) in
  (got, mkFile (content f) (position f + Z.of_nat (length got))
               (creatable f) (fwrites f)).

(** What a buffer holds after [fread] delivered [got] into it. *)
Definition fill (got buf : list Z) : list Z := got ++ drop (length got) buf.

End Stdio.

(** ** Global variables *)

(** Values of [gpNvm_FileDescriptor]: [NULL], a stream that is open, or
    the pointer left behind by [fclose] (not [NULL], no longer usable). *)
Inductive FILE_ptr : Set := fd_NULL | fd_stream | fd_closed.

#[global] Instance FILE_ptr_eq_dec : EqDecision FILE_ptr.
Proof. solve_decision. Defined.

Record nvm : Type := mkNvm {
  gpNvm_FileDescriptor : FILE_ptr;
  gpNvm_MemoryCache : list Z;
  gpNvm_MemoryIndexTable : list Z;
  gpNvm_AttributesCrcTable : list Z;
  backing : Stdio.file
}.

(** Static storage at program start: everything zero, no stream. *)
Definition startup (f : Stdio.file) : nvm :=
  mkNvm fd_NULL
        (replicate (Z.to_nat GPNVM_USER_MEMORY_SIZE) 0)
        (replicate (Z.to_nat GPNVM_MEMORY_INDEX_TABLE_SIZE) 0)
        (replicate (Z.to_nat GPNVM_ATTRIBUTES_CRCS_SIZE) 0)
        f.

(** The program ends and is started again: the file stays, the statics
    are fresh. *)
Definition restart (s : nvm) : nvm := startup (backing s).

(** The arrays have their declared sizes and hold values of their
    element types. *)
Definition well_typed (s : nvm) : Prop :=
  Z.of_nat (length (gpNvm_MemoryCache s)) = GPNVM_USER_MEMORY_SIZE
  ∧ Z.of_nat (length (gpNvm_MemoryIndexTable s)) = GPNVM_MEMORY_INDEX_TABLE_SIZE
  ∧ Z.of_nat (length (gpNvm_AttributesCrcTable s)) = GPNVM_ATTRIBUTES_CRCS_SIZE
  ∧ Forall is_UInt8 (gpNvm_MemoryCache s)
  ∧ Forall is_UInt16 (gpNvm_MemoryIndexTable s)
  ∧ Forall is_UInt8 (gpNvm_AttributesCrcTable s).

#[global] Instance is_UInt8_dec z : Decision (is_UInt8 z).
Proof. unfold is_UInt8. apply _. Defined.

#[global] Instance is_UInt16_dec z : Decision (is_UInt16 z).
Proof. unfold is_UInt16. apply _. Defined.

#[global] Instance well_typed_dec s : Decision (well_typed s).
Proof. unfold well_typed. apply _. Defined.

(** The three [fseek]/[fwrite] pairs that write the cache into the file. *)
Definition write_cache (s : nvm) : Stdio.file :=
  let f := backing s in
  let f := Stdio.fseek_SET 0 f in
  let f := Stdio.fwrite (Mem.bytes_of_UInt16s (gpNvm_MemoryIndexTable s)) f in
  let f := Stdio.fseek_SET (sizeof_UInt16 * GPNVM_MEMORY_INDEX_TABLE_SIZE) f in
  let f := Stdio.fwrite (gpNvm_AttributesCrcTable s) f in
  let f := Stdio.fseek_SET
             (sizeof_UInt16 * GPNVM_MEMORY_INDEX_TABLE_SIZE
              + GPNVM_ATTRIBUTES_CRCS_SIZE) f in
  Stdio.fwrite (gpNvm_MemoryCache s) f.

(** The same writes through [gpNvm_FileDescriptor]: using a stream after
    [fclose] is undefined. *)
Definition flush (s : nvm) : option nvm :=
  match gpNvm_FileDescriptor s with
  | fd_stream =>
      Some (mkNvm fd_stream (gpNvm_MemoryCache s) (gpNvm_MemoryIndexTable s)
                  (gpNvm_AttributesCrcTable s) (write_cache s))
  | _ => None
  end.

(** ** gpNvm_Init *)

(** The branch taken when [ftell] reports an empty file. *)
Definition init_fresh (f : Stdio.file) : nvm :=
  let index :=
    Mem.UInt16s_of_bytes
      (Mem.memset 0xFF (sizeof_UInt16 * GPNVM_MEMORY_INDEX_TABLE_SIZE)) in
  let f := Stdio.fseek_SET 0 f in
  let f := Stdio.fwrite (Mem.bytes_of_UInt16s index) f in
  let crc := Mem.memset 0xFF GPNVM_ATTRIBUTES_CRCS_SIZE in
  let f := Stdio.fseek_SET (sizeof_UInt16 * GPNVM_MEMORY_INDEX_TABLE_SIZE) f in
  let f := Stdio.fwrite crc f in
  let cache := Mem.memset 0xFF GPNVM_USER_MEMORY_SIZE in
  let f := Stdio.fseek_SET
             (sizeof_UInt16 * GPNVM_MEMORY_INDEX_TABLE_SIZE
              + GPNVM_ATTRIBUTES_CRCS_SIZE) f in
  let f := Stdio.fwrite cache f in
  mkNvm fd_stream cache index crc (Stdio.fseek_SET 0 f).

(** The branch that loads the file into the cache. *)
Definition init_load (s : nvm) (f : Stdio.file) : nvm :=
  let f := Stdio.fseek_SET 0 f in
  let '(got, f) :=
    Stdio.fread (sizeof_UInt16 * GPNVM_MEMORY_INDEX_TABLE_SIZE) f in
  let index :=
    Mem.UInt16s_of_bytes
      (Stdio.fill got (Mem.bytes_of_UInt16s (gpNvm_MemoryIndexTable s))) in
  let f := Stdio.fseek_SET (sizeof_UInt16 * GPNVM_MEMORY_INDEX_TABLE_SIZE) f in
  let '(got, f) := Stdio.fread GPNVM_ATTRIBUTES_CRCS_SIZE f in
  let crc := Stdio.fill got (gpNvm_AttributesCrcTable s) in
  let f := Stdio.fseek_SET
             (sizeof_UInt16 * GPNVM_MEMORY_INDEX_TABLE_SIZE
              + GPNVM_ATTRIBUTES_CRCS_SIZE) f in
  let '(got, f) := Stdio.fread GPNVM_USER_MEMORY_SIZE f in
  let cache := Stdio.fill got (gpNvm_MemoryCache s) in
  mkNvm fd_stream cache index crc (Stdio.fseek_SET 0 f).

Definition gpNvm_Init (s : nvm) : option (gpNvm_Result * nvm) :=
  if decide (gpNvm_FileDescriptor s ≠ fd_NULL)
  then Some (GPNVM_ERROR_ALREADY_INITIALIZED, s)
  else
    let opened :=
      match Stdio.fopen_rb_plus (backing s) with
      | Some f => Some f
      | None => Stdio.fopen_wb (backing s)
      end in
    match opened with
    | None => Some (GPNVM_ERROR_OPENING_FILE, s)
    | Some f =>
        let f := Stdio.fseek_END f in
        if decide (Stdio.ftell f = 0)
        then Some (GPNVM_OK, init_fresh f)
        else Some (GPNVM_OK, init_load s f)
    end.

(** ** gpNvm_Uninit *)

Definition gpNvm_Uninit (s : nvm) : option (gpNvm_Result * nvm) :=
  if decide (gpNvm_FileDescriptor s = fd_NULL)
  then Some (GPNVM_ERROR_NOT_INITIALIZED, s)
  else
    s' ← flush s;
    (* fclose(gpNvm_FileDescriptor); the variable keeps its value *)
    Some (GPNVM_OK,
          mkNvm fd_closed (gpNvm_MemoryCache s') (gpNvm_MemoryIndexTable s')
                (gpNvm_AttributesCrcTable s') (backing s')).

(** ** gpNvm_GetAttribute *)

(** [pLength] and [pValue] are given as the objects they point to ([None]
    for a NULL pointer); the result carries these objects as the call
    leaves them. *)
Definition gpNvm_GetAttribute (attrId : Z) (pLength : option Z)
    (pValue : option (list Z)) (s : nvm)
  : option (gpNvm_Result * option Z * option (list Z)) :=
  if decide (gpNvm_FileDescriptor s = fd_NULL)
  then Some (GPNVM_ERROR_NOT_INITIALIZED, pLength, pValue)
  else
    match pLength, pValue with
    | Some _, Some buf =>
        attributeOffset ← Mem.get (gpNvm_MemoryIndexTable s) attrId;
        if decide (attributeOffset = 0xFFFF)
        then Some (GPNVM_ERROR_INVALID_ATTRIBUTE_ID, pLength, pValue)
        else
          attributeCrc ← Mem.get (gpNvm_AttributesCrcTable s) attrId;
          attributeLength ← Mem.get (gpNvm_MemoryCache s) attributeOffset;
          stored ← Mem.load (gpNvm_MemoryCache s) (attributeOffset + 1)
                     attributeLength;
          if decide (gpNvm_CalculateChecksum stored ≠ attributeCrc)
          then Some (GPNVM_ERROR_CORRUPTED_ATTRIBUTE, pLength, pValue)
          else
            buf' ← Mem.memcpy buf 0 stored;
            Some (GPNVM_OK, Some attributeLength, Some buf')
    | _, _ => Some (GPNVM_ERROR_INVALID_PARAMETERS, pLength, pValue)
    end.

(** ** gpNvm_SetAttribute *)

Definition with_cache (c : list Z) (s : nvm) : nvm :=
  mkNvm (gpNvm_FileDescriptor s) c (gpNvm_MemoryIndexTable s)
        (gpNvm_AttributesCrcTable s) (backing s).

Definition with_index (t : list Z) (s : nvm) : nvm :=
  mkNvm (gpNvm_FileDescriptor s) (gpNvm_MemoryCache s) t
        (gpNvm_AttributesCrcTable s) (backing s).

Definition with_crc (t : list Z) (s : nvm) : nvm :=
  mkNvm (gpNvm_FileDescriptor s) (gpNvm_MemoryCache s)
        (gpNvm_MemoryIndexTable s) t (backing s).

(** Body of the loop over [cpt]: [acc] is [attributeOffset], a [UInt16]. *)
Definition offset_step (s : nvm) (acc : option Z) (cpt : nat) : option Z :=
  attributeOffset ← acc;
  entry ← gpNvm_MemoryIndexTable s !! cpt;
  if decide (entry ≠ 0xFFFF)
  then
    len ← Mem.get (gpNvm_MemoryCache s) entry;
    Some (to_UInt16 (attributeOffset + (len + 1)))
  else Some attributeOffset.

(** [attributeOffset = 0; for (cpt = 0; cpt < 256; cpt++) ...]. *)
Definition next_offset (s : nvm) : option Z :=
  foldl (offset_step s) (Some 0)
        (seq 0 (Z.to_nat GPNVM_MEMORY_INDEX_TABLE_SIZE)).

(** [length] is the [UInt8] argument, [pValue] the object behind the
    pointer ([None] for NULL). *)
Definition gpNvm_SetAttribute (attrId length : Z) (pValue : option (list Z))
    (s : nvm) : option (gpNvm_Result * nvm) :=
  if decide (gpNvm_FileDescriptor s = fd_NULL)
  then Some (GPNVM_ERROR_NOT_INITIALIZED, s)
  else
    match pValue with
    | None => Some (GPNVM_ERROR_INVALID_PARAMETERS, s)
    | Some buf =>
        attributeOffset ← Mem.get (gpNvm_MemoryIndexTable s) attrId;
        if decide (attributeOffset ≠ 0xFFFF)
        then
          attributeLength ← Mem.get (gpNvm_MemoryCache s) attributeOffset;
          if decide (length ≠ attributeLength)
          then Some (GPNVM_ERROR_INVALID_PARAMETERS, s)
          else
            new ← Mem.load buf 0 length;
            old ← Mem.load (gpNvm_MemoryCache s) (attributeOffset + 1) length;
            if decide (new = old)
            then Some (GPNVM_OK, s)
            else
              cache ← Mem.memcpy (gpNvm_MemoryCache s) (attributeOffset + 1) new;
              let s := with_cache cache s in
              crc ← Mem.set (gpNvm_AttributesCrcTable s) attrId
                      (gpNvm_CalculateChecksum new);
              let s := with_crc crc s in
              s ← flush s;
              Some (GPNVM_OK, s)
        else
          new ← Mem.load buf 0 length;
          crc ← Mem.set (gpNvm_AttributesCrcTable s) attrId
                  (gpNvm_CalculateChecksum new);
          let s := with_crc crc s in
          attributeOffset ← next_offset s;
          if decide (attributeOffset >= GPNVM_USER_MEMORY_SIZE)
          then Some (GPNVM_ERROR_MEMORY_FULL, s)
          else
            index ← Mem.set (gpNvm_MemoryIndexTable s) attrId attributeOffset;
            let s := with_index index s in
            cache ← Mem.set (gpNvm_MemoryCache s) attributeOffset length;
            cache ← Mem.memcpy cache (attributeOffset + 1) new;
            let s := with_cache cache s in
            s ← flush s;
            Some (GPNVM_OK, s)
    end.

(** ** Outcomes of gpNvm_SetAttribute *)

(** The state after the three tables have been written into the file. *)
Definition flushed (s : nvm) : nvm :=
  mkNvm fd_stream (gpNvm_MemoryCache s) (gpNvm_MemoryIndexTable s)
        (gpNvm_AttributesCrcTable s) (write_cache s).

(** The attribute is stored and the new value equals the stored one. *)
Definition set_same (attrId length : Z) (new : list Z) (s s' : nvm) : Prop :=
  ∃ attributeOffset,
    Mem.get (gpNvm_MemoryIndexTable s) attrId = Some attributeOffset
    ∧ attributeOffset ≠ 0xFFFF
    ∧ Mem.get (gpNvm_MemoryCache s) attributeOffset = Some length
    ∧ Mem.load (gpNvm_MemoryCache s) (attributeOffset + 1) length = Some new
    ∧ s' = s.

(** The attribute is stored and its value is overwritten in place. *)
Definition set_update (attrId length : Z) (new : list Z) (s s' : nvm) : Prop :=
  ∃ attributeOffset old cache crc,
    Mem.get (gpNvm_MemoryIndexTable s) attrId = Some attributeOffset
    ∧ attributeOffset ≠ 0xFFFF
    ∧ Mem.get (gpNvm_MemoryCache s) attributeOffset = Some length
    ∧ Mem.load (gpNvm_MemoryCache s) (attributeOffset + 1) length = Some old
    ∧ new ≠ old
    ∧ Mem.memcpy (gpNvm_MemoryCache s) (attributeOffset + 1) new = Some cache
    ∧ Mem.set (gpNvm_AttributesCrcTable s) attrId (gpNvm_CalculateChecksum new)
      = Some crc
    ∧ gpNvm_FileDescriptor s = fd_stream
    ∧ s' = flushed (with_crc crc (with_cache cache s)).

(** The attribute is new and is appended to the data cache. *)
Definition set_insert (attrId length : Z) (new : list Z) (s s' : nvm) : Prop :=
  ∃ attributeOffset crc index cache1 cache,
    Mem.get (gpNvm_MemoryIndexTable s) attrId = Some 0xFFFF
    ∧ Mem.set (gpNvm_AttributesCrcTable s) attrId (gpNvm_CalculateChecksum new)
      = Some crc
    ∧ next_offset s = Some attributeOffset
    ∧ attributeOffset < GPNVM_USER_MEMORY_SIZE
    ∧ Mem.set (gpNvm_MemoryIndexTable s) attrId attributeOffset = Some index
    ∧ Mem.set (gpNvm_MemoryCache s) attributeOffset length = Some cache1
    ∧ Mem.memcpy cache1 (attributeOffset + 1) new = Some cache
    ∧ gpNvm_FileDescriptor s = fd_stream
    ∧ s' = flushed (with_cache cache (with_index index (with_crc crc s))).

(** The attribute is new and the computed offset is not below the size of
    the data cache: only the CRC entry has been assigned. *)
Definition set_full (attrId : Z) (new : list Z) (s s' : nvm) : Prop :=
  ∃ attributeOffset crc,
    Mem.get (gpNvm_MemoryIndexTable s) attrId = Some 0xFFFF
    ∧ Mem.set (gpNvm_AttributesCrcTable s) attrId (gpNvm_CalculateChecksum new)
      = Some crc
    ∧ next_offset s = Some attributeOffset
    ∧ attributeOffset >= GPNVM_USER_MEMORY_SIZE
    ∧ s' = with_crc crc s.

(** The attribute is stored with another length. *)
Definition set_mismatch (attrId length : Z) (s s' : nvm) : Prop :=
  ∃ attributeOffset attributeLength,
    Mem.get (gpNvm_MemoryIndexTable s) attrId = Some attributeOffset
    ∧ attributeOffset ≠ 0xFFFF
    ∧ Mem.get (gpNvm_MemoryCache s) attributeOffset = Some attributeLength
    ∧ length ≠ attributeLength
    ∧ s' = s.

(** The ways in which [gpNvm_SetAttribute], initialised and given a
    buffer, comes to a result. *)
Inductive set_outcome (attrId length : Z) (buf : list Z) (s : nvm)
  : gpNvm_Result → nvm → Prop :=
  | outcome_mismatch s' :
      set_mismatch attrId length s s' →
      set_outcome attrId length buf s GPNVM_ERROR_INVALID_PARAMETERS s'
  | outcome_same new s' :
      Mem.load buf 0 length = Some new →
      set_same attrId length new s s' →
      set_outcome attrId length buf s GPNVM_OK s'
  | outcome_update new s' :
      Mem.load buf 0 length = Some new →
      set_update attrId length new s s' →
      set_outcome attrId length buf s GPNVM_OK s'
  | outcome_insert new s' :
      Mem.load buf 0 length = Some new →
      set_insert attrId length new s s' →
      set_outcome attrId length buf s GPNVM_OK s'
  | outcome_full new s' :
      Mem.load buf 0 length = Some new →
      set_full attrId new s s' →
      set_outcome attrId length buf s GPNVM_ERROR_MEMORY_FULL s'.

(** The attribute [attrId] can be read: the component is initialised,
    the index entry points to a record of length [len] with value [v]
    inside the data cache, and the CRC entry is the checksum of [v]. *)
Definition readable (s : nvm) (attrId off len : Z) (v : list Z) : Prop :=
  gpNvm_FileDescriptor s ≠ fd_NULL
  ∧ Mem.get (gpNvm_MemoryIndexTable s) attrId = Some off
  ∧ off ≠ 0xFFFF
  ∧ Mem.get (gpNvm_MemoryCache s) off = Some len
  ∧ Mem.load (gpNvm_MemoryCache s) (off + 1) len = Some v
  ∧ Mem.get (gpNvm_AttributesCrcTable s) attrId
    = Some (gpNvm_CalculateChecksum v).

(** ** The next free offset *)

(** The body of the loop in [gpNvm_SetAttribute], once the index entry
    has been read. *)
Definition add_record (cache : list Z) (acc : option Z) (entry : Z)
  : option Z :=
  attributeOffset ← acc;
  if decide (entry ≠ 0xFFFF)
  then
    len ← Mem.get cache entry;
    Some (to_UInt16 (attributeOffset + (len + 1)))
  else Some attributeOffset.

(** The specification's next free offset: the sum, over every index entry
    that is not the sentinel, of one plus the length byte found at that
    offset of the data cache. *)
Definition stored_offsets (s : nvm) : list Z :=
  filter (λ entry, entry ≠ 0xFFFF) (gpNvm_MemoryIndexTable s).

Definition record_size (cache : list Z) (off : Z) : Z :=
  1 + default 0 (Mem.get cache off).

Definition bytes_consumed (s : nvm) : Z :=
  foldr Z.add 0 (record_size (gpNvm_MemoryCache s) <$> stored_offsets s).

(** ** Stores without damage *)

(** Bytes taken by the records that a list of index entries points to. *)
Definition total (cache index : list Z) : Z :=
  foldr Z.add 0 (record_size cache <$> filter (λ entry, entry ≠ 0xFFFF) index).

(** The record at [off]: its length byte and its value bytes. *)
Definition record_at (s : nvm) (off len : Z) (v : list Z) : Prop :=
  Mem.get (gpNvm_MemoryCache s) off = Some len
  ∧ Mem.load (gpNvm_MemoryCache s) (off + 1) len = Some v.

(** A store in which every index entry that is not the sentinel points
    to a record lying below the next free offset, whose CRC entry is the
    checksum of its value, and in which no two records overlap. *)
Definition sound (s : nvm) : Prop :=
  well_typed s
  ∧ (∀ id off,
       Mem.get (gpNvm_MemoryIndexTable s) id = Some off → off ≠ 0xFFFF →
       ∃ len v, record_at s off len v
         ∧ off + 1 + len <= bytes_consumed s
         ∧ Mem.get (gpNvm_AttributesCrcTable s) id
           = Some (gpNvm_CalculateChecksum v))
  ∧ (∀ id id' off off' len len',
       id ≠ id' →
       Mem.get (gpNvm_MemoryIndexTable s) id = Some off → off ≠ 0xFFFF →
       Mem.get (gpNvm_MemoryIndexTable s) id' = Some off' → off' ≠ 0xFFFF →
       Mem.get (gpNvm_MemoryCache s) off = Some len →
       Mem.get (gpNvm_MemoryCache s) off' = Some len' →
       off + 1 + len <= off' ∨ off' + 1 + len' <= off).

(** The stores that [gpNvm_Init] on an empty file and calls of
    [gpNvm_SetAttribute] with byte buffers can build. *)
Inductive grown : nvm → Prop :=
  | grown_init f : grown (init_fresh f)
  | grown_set s attrId length buf r s' :
      grown s →
      Forall is_UInt8 buf →
      is_UInt8 length →
      gpNvm_SetAttribute attrId length (Some buf) s = Some (r, s') →
      grown s'.

(** ** Attributes that were never written *)


(** ** The file across runs of the program *)

(** The backing region has size zero: the file exists and is empty, or it
    does not exist and is created (empty) by [fopen(.., "wb")]. *)
Definition size_zero (f : Stdio.file) : Prop :=
  Stdio.content f = Some []
  ∨ (Stdio.content f = None ∧ Stdio.creatable f = true).

(** The stream [gpNvm_Init] holds after opening such a file and seeking
    to its end. *)
Definition opened_empty (f : Stdio.file) : Stdio.file :=
  Stdio.mkFile (Some []) 0 (Stdio.creatable f) (Stdio.fwrites f).

(** The bytes of the file once the cache has been written into it. *)
Definition written (s : nvm) : list Z :=
  Stdio.overwrite 768 (gpNvm_MemoryCache s)
    (Stdio.overwrite 512 (gpNvm_AttributesCrcTable s)
       (Stdio.overwrite 0 (Mem.bytes_of_UInt16s (gpNvm_MemoryIndexTable s))
          (Stdio.bytes (backing s)))).

(** A run of the program that finds the bytes of [f] in the file: no
    stream is open and the arrays have their declared sizes. *)
Definition starts_on (f : Stdio.file) (s : nvm) : Prop :=
  gpNvm_FileDescriptor s = fd_NULL
  ∧ Stdio.content (backing s) = Stdio.content f
  ∧ Z.of_nat (length (gpNvm_MemoryCache s)) = GPNVM_USER_MEMORY_SIZE
  ∧ Z.of_nat (length (gpNvm_MemoryIndexTable s)) = GPNVM_MEMORY_INDEX_TABLE_SIZE
  ∧ Z.of_nat (length (gpNvm_AttributesCrcTable s)) = GPNVM_ATTRIBUTES_CRCS_SIZE.

(** ** Stores used in the examples *)

(** No file yet, in a directory where it can be created. *)
Definition no_file : Stdio.file := Stdio.mkFile None 0 true [].

(** The state after [gpNvm_Init] on a fresh system. *)
Definition fresh : nvm := init_fresh (Stdio.mkFile (Some []) 0 true []).

Definition attr1 : list Z := Z.of_nat <$> seq 0 20.
Definition attr2 : list Z := [0xaa].

Definition state_of (r : option (gpNvm_Result * nvm)) : nvm :=
  match r with
  | Some (_, s) => s
  | None => startup no_file
  end.

(** The unit test's first two attributes, written into a fresh store. *)
Definition with_attr1 : nvm :=
  state_of (gpNvm_SetAttribute 1 20 (Some attr1) fresh).

Definition with_attr2 : nvm :=
  state_of (gpNvm_SetAttribute 2 1 (Some attr2) with_attr1).

(** Attribute 1 overwritten with twenty bytes [0xee]. *)
Definition attr1' : list Z := replicate 20 0xee.

Definition with_attr1' : nvm :=
  state_of (gpNvm_SetAttribute 1 20 (Some attr1') with_attr2).

(** The file as [gpNvm_Uninit] leaves it, with one bit of the stored value
    byte of attribute 2 flipped afterwards ([0xaa] becomes [0xab]; the byte
    is at data cache offset 22, file offset 768 + 22). *)
Definition closed_file : Stdio.file :=
  backing (state_of (gpNvm_Uninit with_attr2)).

Definition bit_flipped_file : Stdio.file :=
  Stdio.mkFile (Some (<[790%nat := 0xab]> (Stdio.bytes closed_file))) 0 true [].

(** A new run of the program opens the damaged file. *)
Definition reopened_flipped : nvm :=
  state_of (gpNvm_Init (startup bit_flipped_file)).



(** Blocks of [n] bytes, to fill the data cache. *)
Definition block (n : nat) : list Z := replicate n 0x11.

Definition insert_block (attrId : Z) (n : nat) (s : nvm) : nvm :=
  state_of (gpNvm_SetAttribute attrId (Z.of_nat n) (Some (block n)) s).

(** Four records of 1 + 255 bytes: 1024 bytes used. *)
Definition four_blocks : nvm :=
  insert_block 3 255 (insert_block 2 255 (insert_block 1 255
    (insert_block 0 255 fresh))).

(** A fifth one fills the 1280 bytes exactly. *)
Definition full : nvm := insert_block 4 255 four_blocks.

(** A fifth one of 1 + 254 bytes leaves one byte. *)
Definition one_byte_left : nvm := insert_block 4 254 four_blocks.

(** What the call on [full] returns. *)
Definition full_rejected : nvm :=
  state_of (gpNvm_SetAttribute 5 1 (Some [0]) full).

(** * Verification *)

(** ** Constants *)

Lemma user_memory_size : GPNVM_USER_MEMORY_SIZE = 1280.
Proof. reflexivity. Qed.

Lemma index_table_size : GPNVM_MEMORY_INDEX_TABLE_SIZE = 256.
Proof. reflexivity. Qed.

Lemma crcs_size : GPNVM_ATTRIBUTES_CRCS_SIZE = 256.
Proof. reflexivity. Qed.

(** ** Memory blocks *)

Section MemFacts.
Implicit Types (a src : list Z) (off n i j x : Z).

Lemma get_Some_bounds a i x :
  Mem.get a i = Some x → 0 <= i < Z.of_nat (length a).
Proof.
  unfold Mem.get. case_decide as Hi; [|done].
  intros Hx%lookup_lt_Some. lia.
Qed.

Lemma set_length a i x a' :
  Mem.set a i x = Some a' → length a' = length a.
Proof.
  unfold Mem.set. case_decide; [|done].
  intros [= <-]. apply length_insert.
Qed.

Lemma get_set_eq a i x a' :
  Mem.set a i x = Some a' → Mem.get a' i = Some x.
Proof.
  unfold Mem.set, Mem.get. case_decide; [|done].
  intros [= <-]. rewrite decide_True by lia.
  apply list_lookup_insert_eq. lia.
Qed.

Lemma get_set_ne a i j x a' :
  Mem.set a i x = Some a' → j ≠ i → Mem.get a' j = Mem.get a j.
Proof.
  unfold Mem.set, Mem.get. case_decide as Hi; [|done].
  intros [= <-] Hne. case_decide as Hj; [|done].
  apply list_lookup_insert_ne. lia.
Qed.

Lemma load_length a off n bs :
  Mem.load a off n = Some bs → Z.of_nat (length bs) = n.
Proof.
  unfold Mem.load. case_decide as Hb; [|done].
  intros [= <-]. rewrite length_take, length_drop. lia.
Qed.

Lemma load_all a : Mem.load a 0 (Z.of_nat (length a)) = Some a.
Proof.
  unfold Mem.load. rewrite decide_True by lia.
  rewrite Nat2Z.id. simpl. by rewrite take_ge.
Qed.

Lemma memcpy_length a off src a' :
  Mem.memcpy a off src = Some a' → length a' = length a.
Proof.
  unfold Mem.memcpy. case_decide as Hb; [|done].
  intros [= <-]. rewrite !length_app, length_take, length_drop. lia.
Qed.

(** Reading back what [memcpy] has just written. *)
Lemma load_memcpy a off src a' :
  Mem.memcpy a off src = Some a' →
  Mem.load a' off (Z.of_nat (length src)) = Some src.
Proof.
  intros Hcp. pose proof (memcpy_length _ _ _ _ Hcp) as Hlen.
  revert Hcp. unfold Mem.memcpy, Mem.load.
  case_decide as Hb; [|done]. intros [= <-].
  rewrite decide_True by lia. f_equal.
  rewrite drop_app_length' by (rewrite length_take; lia).
  rewrite Nat2Z.id. apply take_app_length.
Qed.

(** [memcpy] leaves everything outside the destination block alone. *)
Lemma get_memcpy_outside a off src a' j :
  Mem.memcpy a off src = Some a' →
  j < off ∨ off + Z.of_nat (length src) <= j →
  Mem.get a' j = Mem.get a j.
Proof.
  unfold Mem.memcpy, Mem.get. case_decide as Hb; [|done].
  intros [= <-] Hj. case_decide as H0; [|done].
  destruct (decide (j < off)) as [Hlt|Hge].
  - rewrite lookup_app_l by (rewrite length_take; lia).
    apply lookup_take_lt. lia.
  - rewrite lookup_app_r by (rewrite length_take; lia).
    rewrite length_take.
    rewrite lookup_app_r by lia.
    rewrite lookup_drop. f_equal. lia.
Qed.

Lemma load_memcpy_outside a off src a' off' n :
  Mem.memcpy a off src = Some a' →
  off' + n <= off ∨ off + Z.of_nat (length src) <= off' →
  Mem.load a' off' n = Mem.load a off' n.
Proof.
  intros Hcp Hdisj. pose proof (memcpy_length _ _ _ _ Hcp) as Hlen.
  unfold Mem.load. rewrite Hlen.
  case_decide as Hb; [|done]. f_equal.
  apply list_eq. intros k.
  destruct (decide (k < Z.to_nat n)%nat) as [Hk|Hk].
  - rewrite !lookup_take_lt, !lookup_drop by done.
    pose proof (get_memcpy_outside a off src a'
                  (Z.of_nat (Z.to_nat off' + k)) Hcp) as Hget.
    unfold Mem.get in Hget. rewrite !decide_True, !Nat2Z.id in Hget by lia.
    apply Hget. lia.
  - rewrite !lookup_take_ge by lia. done.
Qed.

Lemma memcpy_at_0 a src :
  (length src <= length a)%nat →
  Mem.memcpy a 0 src = Some (src ++ drop (length src) a).
Proof.
  intros Hle. unfold Mem.memcpy. rewrite decide_True by lia. done.
Qed.

End MemFacts.

(** ** Initialisation on an empty backing file *)

Lemma init_size_zero (s : nvm) :
  gpNvm_FileDescriptor s = fd_NULL →
  size_zero (backing s) →
  gpNvm_Init s = Some (GPNVM_OK, init_fresh (opened_empty (backing s))).
Proof.
  intros Hfd Hz. unfold gpNvm_Init. rewrite Hfd.
  rewrite decide_False by (intros Hne; by apply Hne).
  destruct (backing s) as [cont pos cr log]; unfold size_zero in Hz;
    simpl in Hz.
  destruct Hz as [-> | [-> ->]]; reflexivity.
Qed.

Lemma init_fresh_index f :
  gpNvm_MemoryIndexTable (init_fresh f) = replicate 256 0xFFFF.
Proof. vm_compute. reflexivity. Qed.

Lemma init_fresh_crc f :
  gpNvm_AttributesCrcTable (init_fresh f) = replicate 256 0xFF.
Proof. vm_compute. reflexivity. Qed.

Lemma init_fresh_cache f :
  gpNvm_MemoryCache (init_fresh f)
  = replicate (Z.to_nat (GPNVM_MEMORY_SIZE - 768)) 0xFF.
Proof. vm_compute. reflexivity. Qed.

Lemma init_fresh_file f :
  Stdio.content (backing (init_fresh (opened_empty f)))
  = Some (Mem.bytes_of_UInt16s (gpNvm_MemoryIndexTable (init_fresh (opened_empty f)))
          ++ gpNvm_AttributesCrcTable (init_fresh (opened_empty f))
          ++ gpNvm_MemoryCache (init_fresh (opened_empty f))).
Proof. vm_compute. reflexivity. Qed.

Lemma init_fresh_fwrites f :
  Stdio.fwrites (backing (init_fresh (opened_empty f)))
  = [(768, GPNVM_MEMORY_SIZE - 768); (512, 256); (0, 512)] ++ Stdio.fwrites f.
Proof. vm_compute. reflexivity. Qed.

Lemma init_fresh_well_typed f : well_typed (init_fresh f).
Proof.
  unfold well_typed.
  rewrite init_fresh_index, init_fresh_crc, init_fresh_cache.
  rewrite !length_replicate.
  repeat split; try reflexivity; apply Forall_replicate; vm_compute;
    split; congruence.
Qed.

(** C8. [gpNvm_Init] on a backing file of size zero returns [GPNVM_OK];
    it sets every index entry to the sentinel [0xFFFF], every CRC entry to
    [0xFF] and every byte of the data cache to [0xFF], and writes the three
    tables into the file with three [fwrite] calls: 512 bytes at offset 0,
    256 bytes at offset 512 and [GPNVM_MEMORY_SIZE - 768] bytes at offset
    768.  The file then holds exactly the index table, the CRC table and
    the data cache one after the other, with nothing before, between or
    after them. *)
Theorem init_empty_backing (s : nvm) :
  gpNvm_FileDescriptor s = fd_NULL →
  size_zero (backing s) →
  ∃ s', gpNvm_Init s = Some (GPNVM_OK, s')
    ∧ gpNvm_FileDescriptor s' = fd_stream
    ∧ gpNvm_MemoryIndexTable s' = replicate 256 0xFFFF
    ∧ gpNvm_AttributesCrcTable s' = replicate 256 0xFF
    ∧ gpNvm_MemoryCache s'
      = replicate (Z.to_nat (GPNVM_MEMORY_SIZE - 768)) 0xFF
    ∧ Stdio.content (backing s')
      = Some (Mem.bytes_of_UInt16s (gpNvm_MemoryIndexTable s')
              ++ gpNvm_AttributesCrcTable s'
              ++ gpNvm_MemoryCache s')
    ∧ length (Mem.bytes_of_UInt16s (gpNvm_MemoryIndexTable s')) = 512%nat
    ∧ length (gpNvm_AttributesCrcTable s') = 256%nat
    ∧ Z.of_nat (length (gpNvm_MemoryCache s')) = GPNVM_MEMORY_SIZE - 768
    ∧ Stdio.fwrites (backing s')
      = [(768, GPNVM_MEMORY_SIZE - 768); (512, 256); (0, 512)]
        ++ Stdio.fwrites (backing s).
Proof.
  intros Hfd Hz. eexists. split; [by apply init_size_zero|].
  split; [reflexivity|].
  rewrite init_fresh_file, init_fresh_fwrites.
  rewrite init_fresh_index, init_fresh_crc, init_fresh_cache.
  repeat split; vm_compute; reflexivity.
Qed.

Lemma init_empty_backing_witness :
  ∃ s', gpNvm_Init (startup no_file) = Some (GPNVM_OK, s')
    ∧ gpNvm_FileDescriptor s' = fd_stream
    ∧ gpNvm_MemoryIndexTable s' = replicate 256 0xFFFF
    ∧ gpNvm_AttributesCrcTable s' = replicate 256 0xFF
    ∧ gpNvm_MemoryCache s'
      = replicate (Z.to_nat (GPNVM_MEMORY_SIZE - 768)) 0xFF
    ∧ Stdio.content (backing s')
      = Some (Mem.bytes_of_UInt16s (gpNvm_MemoryIndexTable s')
              ++ gpNvm_AttributesCrcTable s'
              ++ gpNvm_MemoryCache s')
    ∧ length (Mem.bytes_of_UInt16s (gpNvm_MemoryIndexTable s')) = 512%nat
    ∧ length (gpNvm_AttributesCrcTable s') = 256%nat
    ∧ Z.of_nat (length (gpNvm_MemoryCache s')) = GPNVM_MEMORY_SIZE - 768
    ∧ Stdio.fwrites (backing s')
      = [(768, GPNVM_MEMORY_SIZE - 768); (512, 256); (0, 512)]
        ++ Stdio.fwrites (backing (startup no_file)).
Proof.
  apply (init_empty_backing (startup no_file)).
  - reflexivity.
  - right. split; reflexivity.
Defined.

(** ** Checksum of the empty value *)

(** C10. [gpNvm_CalculateChecksum] of a zero-length input is [0xFF]; this
    is the value every CRC entry holds after [gpNvm_Init] on an empty
    backing file; and an attribute whose record has length 0 and whose CRC
    entry still holds that default passes the check of
    [gpNvm_GetAttribute]. *)
Theorem checksum_empty_is_default :
  gpNvm_CalculateChecksum [] = 0xFF
  ∧ (∀ s s' attrId,
       gpNvm_FileDescriptor s = fd_NULL →
       size_zero (backing s) →
       gpNvm_Init s = Some (GPNVM_OK, s') →
       0 <= attrId < 256 →
       Mem.get (gpNvm_AttributesCrcTable s') attrId
       = Some (gpNvm_CalculateChecksum []))
  ∧ (∀ s attrId attributeOffset len0 buf,
       gpNvm_FileDescriptor s ≠ fd_NULL →
       Mem.get (gpNvm_MemoryIndexTable s) attrId = Some attributeOffset →
       attributeOffset ≠ 0xFFFF →
       Mem.get (gpNvm_MemoryCache s) attributeOffset = Some 0 →
       Mem.get (gpNvm_AttributesCrcTable s) attrId = Some 0xFF →
       gpNvm_GetAttribute attrId (Some len0) (Some buf) s
       = Some (GPNVM_OK, Some 0, Some buf)).
Proof.
  split; [reflexivity|]. split.
  - intros s s' attrId Hfd Hz Hinit Hid.
    rewrite init_size_zero in Hinit by done. injection Hinit as <-.
    rewrite init_fresh_crc. unfold Mem.get. rewrite decide_True by lia.
    apply lookup_replicate_2. lia.
  - intros s attrId off len0 buf Hfd Hidx Hoff Hlen Hcrc.
    unfold gpNvm_GetAttribute. rewrite decide_False by done.
    rewrite Hidx. simpl. rewrite decide_False by done.
    rewrite Hcrc, Hlen. simpl.
    apply get_Some_bounds in Hlen.
    unfold Mem.load. rewrite decide_True by lia. simpl.
    change (Z.to_nat 0) with 0%nat. rewrite take_0.
    rewrite memcpy_at_0 by (simpl; lia). reflexivity.
Qed.

Lemma checksum_empty_is_default_witness :
  Mem.get (gpNvm_AttributesCrcTable fresh) 7
  = Some (gpNvm_CalculateChecksum []).
Proof.
  apply (proj1 (proj2 checksum_empty_is_default) (startup no_file) fresh 7).
  - reflexivity.
  - right. split; reflexivity.
  - vm_compute. reflexivity.
  - lia.
Defined.

(** ** The paths of gpNvm_SetAttribute *)

Lemma flush_Some s s' :
  flush s = Some s' ↔ gpNvm_FileDescriptor s = fd_stream ∧ s' = flushed s.
Proof.
  unfold flush, flushed.
  destruct (gpNvm_FileDescriptor s); split; try (by intros [? ?]); try done.
  - by intros [= <-].
  - by intros [_ ->].
Qed.

Lemma next_offset_with_crc crc s : next_offset (with_crc crc s) = next_offset s.
Proof. reflexivity. Qed.

(** One step through a call: name what the next read or write yields and
    close the case where it is undefined. *)
Ltac step H x Hx :=
  lazymatch type of H with
  | mbind _ ?m = _ =>
      destruct m as [x|] eqn:Hx; [|done];
      cbn [mbind option_bind] in H;
      unfold with_cache, with_index, with_crc in Hx;
      cbn [gpNvm_MemoryCache gpNvm_MemoryIndexTable gpNvm_AttributesCrcTable]
        in Hx
  end.

(** Every result of a call comes about in one of the five ways. *)
Lemma set_cases attrId length buf s r s' :
  gpNvm_SetAttribute attrId length (Some buf) s = Some (r, s') →
  gpNvm_FileDescriptor s ≠ fd_NULL →
  set_outcome attrId length buf s r s'.
Proof.
  unfold gpNvm_SetAttribute. intros H Hfd.
  rewrite decide_False in H by done.
  step H off Hidx. case_decide as Hoff.
  - step H len Hlen. case_decide as Hl.
    { injection H as <- <-. apply outcome_mismatch. by exists off, len. }
    subst len. step H new Hnew. step H old Hold. case_decide as Heq.
    + injection H as <- <-. subst old.
      apply (outcome_same _ _ _ _ new); [done|]. by exists off.
    + step H cache Hcp. step H crc Hcrc. step H s2 Hfl.
      injection H as <- <-. apply flush_Some in Hfl as [Hst ->].
      apply (outcome_update _ _ _ _ new); [done|].
      by exists off, old, cache, crc.
  - subst off. step H new Hnew. step H crc Hcrc.
    rewrite next_offset_with_crc in H. step H off Hnext.
    case_decide as Hfull.
    + injection H as <- <-.
      apply (outcome_full _ _ _ _ new); [done|]. by exists off, crc.
    + step H index Hix. step H cache1 Hc1. step H cache Hcp. step H s2 Hfl.
      injection H as <- <-. apply flush_Some in Hfl as [Hst ->].
      apply (outcome_insert _ _ _ _ new); [done|].
      exists off, crc, index, cache1, cache. repeat split; try done. lia.
Qed.

Lemma set_initialised attrId length pValue s s' :
  gpNvm_SetAttribute attrId length pValue s = Some (GPNVM_OK, s') →
  gpNvm_FileDescriptor s ≠ fd_NULL.
Proof.
  intros Hset Hfd. unfold gpNvm_SetAttribute in Hset.
  by rewrite decide_True in Hset.
Qed.

(** Every call that returns [GPNVM_OK] went through one of three. *)
Lemma set_ok_inv attrId length buf s s' :
  gpNvm_SetAttribute attrId length (Some buf) s = Some (GPNVM_OK, s') →
  ∃ new, Mem.load buf 0 length = Some new
    ∧ (set_same attrId length new s s'
       ∨ set_update attrId length new s s'
       ∨ set_insert attrId length new s s').
Proof.
  intros Hset. pose proof (set_initialised _ _ _ _ _ Hset) as Hfd.
  apply set_cases in Hset; [|done].
  inversion Hset as [| new ? Hnew Hp | new ? Hnew Hp | new ? Hnew Hp |];
    subst; exists new; eauto.
Qed.

(** After a call that returned [GPNVM_OK] the attribute is stored with
    the given length and bytes; unless nothing was written, its CRC entry
    is the checksum of these bytes. *)
Lemma set_ok_record attrId length buf s s' :
  gpNvm_SetAttribute attrId length (Some buf) s = Some (GPNVM_OK, s') →
  ∃ new attributeOffset,
    Mem.load buf 0 length = Some new
    ∧ gpNvm_FileDescriptor s' ≠ fd_NULL
    ∧ Mem.get (gpNvm_MemoryIndexTable s') attrId = Some attributeOffset
    ∧ attributeOffset ≠ 0xFFFF
    ∧ Mem.get (gpNvm_MemoryCache s') attributeOffset = Some length
    ∧ Mem.load (gpNvm_MemoryCache s') (attributeOffset + 1) length = Some new
    ∧ (set_same attrId length new s s'
       ∨ Mem.get (gpNvm_AttributesCrcTable s') attrId
         = Some (gpNvm_CalculateChecksum new)).
Proof.
  intros Hset. pose proof (set_initialised _ _ _ _ _ Hset) as Hfd.
  destruct (set_ok_inv _ _ _ _ _ Hset) as (new & Hnew & Hpath).
  pose proof (load_length _ _ _ _ Hnew) as Hlen.
  destruct Hpath as [Hsame | [Hupd | Hins]].
  - pose proof Hsame as (off & Hidx & Hoff & Hl & Hold & ->).
    exists new, off. repeat split; try done. by left.
  - destruct Hupd as (off & old & cache & crc & Hidx & Hoff & Hl & Hold
                      & Hne & Hcp & Hcrc & Hst & ->).
    exists new, off. simpl. repeat split; try done.
    + rewrite (get_memcpy_outside _ _ _ _ off Hcp) by lia. done.
    + rewrite <- Hlen. exact (load_memcpy _ _ _ _ Hcp).
    + right. by eapply get_set_eq.
  - destruct Hins as (off & crc & index & cache1 & cache & Hidx & Hcrc & Hnext
                      & Hfull & Hix & Hc1 & Hcp & Hst & ->).
    exists new, off. simpl.
    pose proof (get_set_eq _ _ _ _ Hc1) as Hget1.
    pose proof (get_Some_bounds _ _ _ Hget1) as Hb.
    repeat split; try done.
    + by eapply get_set_eq.
    + rewrite user_memory_size in Hfull. lia.
    + rewrite (get_memcpy_outside _ _ _ _ off Hcp) by lia. done.
    + rewrite <- Hlen. exact (load_memcpy _ _ _ _ Hcp).
    + right. by eapply get_set_eq.
Qed.

(** ** Reading: integrity check *)

(** C5. For a stored attribute (index entry not the sentinel, record
    inside the data cache), [gpNvm_GetAttribute] recomputes the checksum of
    the value bytes; when it differs from the CRC entry the call returns
    [GPNVM_ERROR_CORRUPTED_ATTRIBUTE] and leaves [*pLength] and the value
    buffer as they were; when it matches, the call stores the length in
    [*pLength], copies the value bytes to the start of the buffer and
    returns [GPNVM_OK]. *)
Theorem get_checks_integrity s attrId attributeOffset attributeLength
    attributeCrc stored len0 buf :
  gpNvm_FileDescriptor s ≠ fd_NULL →
  Mem.get (gpNvm_MemoryIndexTable s) attrId = Some attributeOffset →
  attributeOffset ≠ 0xFFFF →
  Mem.get (gpNvm_AttributesCrcTable s) attrId = Some attributeCrc →
  Mem.get (gpNvm_MemoryCache s) attributeOffset = Some attributeLength →
  Mem.load (gpNvm_MemoryCache s) (attributeOffset + 1) attributeLength
  = Some stored →
  (gpNvm_CalculateChecksum stored ≠ attributeCrc →
   gpNvm_GetAttribute attrId (Some len0) (Some buf) s
   = Some (GPNVM_ERROR_CORRUPTED_ATTRIBUTE, Some len0, Some buf))
  ∧ (gpNvm_CalculateChecksum stored = attributeCrc →
     (length stored <= length buf)%nat →
     gpNvm_GetAttribute attrId (Some len0) (Some buf) s
     = Some (GPNVM_OK, Some attributeLength,
             Some (stored ++ drop (length stored) buf))).
Proof.
  intros Hfd Hidx Hoff Hcrc Hlen Hstored.
  unfold gpNvm_GetAttribute. rewrite decide_False by done.
  rewrite Hidx. cbn [mbind option_bind]. rewrite decide_False by done.
  rewrite Hcrc. cbn [mbind option_bind].
  rewrite Hlen. cbn [mbind option_bind].
  rewrite Hstored. cbn [mbind option_bind].
  split.
  - intros Hbad. by rewrite decide_True.
  - intros Hgood Hcap. rewrite decide_False by (intros Hne; by apply Hne).
    by rewrite memcpy_at_0.
Qed.

(** ** Writing an attribute that is already stored *)

(** C3. For a stored attribute, a call whose [length] differs from the
    length byte of its record returns [GPNVM_ERROR_INVALID_PARAMETERS] and
    leaves the whole state (the three tables and the file) as it was. *)
Theorem set_length_mismatch s attrId length buf attributeOffset attributeLength :
  gpNvm_FileDescriptor s ≠ fd_NULL →
  Mem.get (gpNvm_MemoryIndexTable s) attrId = Some attributeOffset →
  attributeOffset ≠ 0xFFFF →
  Mem.get (gpNvm_MemoryCache s) attributeOffset = Some attributeLength →
  length ≠ attributeLength →
  gpNvm_SetAttribute attrId length (Some buf) s
  = Some (GPNVM_ERROR_INVALID_PARAMETERS, s).
Proof.
  intros Hfd Hidx Hoff Hlen Hne.
  unfold gpNvm_SetAttribute. rewrite decide_False by done.
  rewrite Hidx. cbn [mbind option_bind]. rewrite decide_True by done.
  rewrite Hlen. cbn [mbind option_bind]. by rewrite decide_True.
Qed.

Lemma set_same_value s attrId v attributeOffset :
  gpNvm_FileDescriptor s ≠ fd_NULL →
  Mem.get (gpNvm_MemoryIndexTable s) attrId = Some attributeOffset →
  attributeOffset ≠ 0xFFFF →
  Mem.get (gpNvm_MemoryCache s) attributeOffset = Some (Z.of_nat (length v)) →
  Mem.load (gpNvm_MemoryCache s) (attributeOffset + 1) (Z.of_nat (length v))
  = Some v →
  gpNvm_SetAttribute attrId (Z.of_nat (length v)) (Some v) s
  = Some (GPNVM_OK, s).
Proof.
  intros Hfd Hidx Hoff Hlen Hold.
  unfold gpNvm_SetAttribute. rewrite decide_False by done.
  rewrite Hidx. cbn [mbind option_bind]. rewrite decide_True by done.
  rewrite Hlen. cbn [mbind option_bind].
  rewrite decide_False by (intros Hne; by apply Hne).
  rewrite load_all, Hold. cbn [mbind option_bind]. by rewrite decide_True.
Qed.

(** C4. For a stored attribute, a call with the bytes that are already
    stored returns [GPNVM_OK] and the state it returns is the state it was
    given: tables, file bytes, stream position and the log of [fwrite]
    calls are the same, so nothing was written.  Hence a second
    [gpNvm_SetAttribute] with the same value, right after one that returned
    [GPNVM_OK], changes nothing. *)
Theorem set_identical_is_noop :
  (∀ s attrId v attributeOffset,
     gpNvm_FileDescriptor s ≠ fd_NULL →
     Mem.get (gpNvm_MemoryIndexTable s) attrId = Some attributeOffset →
     attributeOffset ≠ 0xFFFF →
     Mem.get (gpNvm_MemoryCache s) attributeOffset
     = Some (Z.of_nat (length v)) →
     Mem.load (gpNvm_MemoryCache s) (attributeOffset + 1)
       (Z.of_nat (length v)) = Some v →
     gpNvm_SetAttribute attrId (Z.of_nat (length v)) (Some v) s
     = Some (GPNVM_OK, s))
  ∧ (∀ s s' attrId v,
       gpNvm_SetAttribute attrId (Z.of_nat (length v)) (Some v) s
       = Some (GPNVM_OK, s') →
       gpNvm_SetAttribute attrId (Z.of_nat (length v)) (Some v) s'
       = Some (GPNVM_OK, s')).
Proof.
  split; [apply set_same_value|].
  intros s s' attrId v Hset.
  destruct (set_ok_record _ _ _ _ _ Hset)
    as (new & off & Hnew & Hfd & Hidx & Hoff & Hlen & Hload & _).
  rewrite load_all in Hnew. injection Hnew as <-.
  by eapply set_same_value.
Qed.


(** ** Writing, then reading *)

(** What can be read is what [gpNvm_GetAttribute] delivers. *)
Lemma get_readable s attrId off len v len0 buf :
  readable s attrId off len v →
  (length v <= length buf)%nat →
  gpNvm_GetAttribute attrId (Some len0) (Some buf) s
  = Some (GPNVM_OK, Some len, Some (v ++ drop (length v) buf)).
Proof.
  intros (Hfd & Hidx & Hoff & Hlen & Hv & Hcrc) Hcap.
  unfold gpNvm_GetAttribute. rewrite decide_False by done.
  rewrite Hidx. cbn [mbind option_bind]. rewrite decide_False by done.
  rewrite Hcrc. cbn [mbind option_bind].
  rewrite Hlen. cbn [mbind option_bind].
  rewrite Hv. cbn [mbind option_bind].
  rewrite decide_False by (intros Hne; by apply Hne).
  by rewrite memcpy_at_0.
Qed.


(** After [GPNVM_OK] the attribute can be read, provided that a value
    found already stored had a matching CRC entry. *)
Lemma readable_after_set s s' attrId v :
  gpNvm_SetAttribute attrId (Z.of_nat (length v)) (Some v) s
  = Some (GPNVM_OK, s') →
  (∀ attributeOffset,
     Mem.get (gpNvm_MemoryIndexTable s) attrId = Some attributeOffset →
     attributeOffset ≠ 0xFFFF →
     Mem.load (gpNvm_MemoryCache s) (attributeOffset + 1)
       (Z.of_nat (length v)) = Some v →
     Mem.get (gpNvm_AttributesCrcTable s) attrId
     = Some (gpNvm_CalculateChecksum v)) →
  ∃ off, readable s' attrId off (Z.of_nat (length v)) v.
Proof.
  intros Hset Hcrc.
  destruct (set_ok_record _ _ _ _ _ Hset)
    as (new & off & Hnew & Hfd & Hidx & Hoff & Hlen & Hload & Hcase).
  rewrite load_all in Hnew. injection Hnew as <-.
  exists off. repeat split; try done.
  destruct Hcase as [(off' & Hidx' & Hoff' & _ & Hold & ->) | Hc]; [|done].
  by apply (Hcrc off').
Qed.

(** C2, as the code has it.  If [gpNvm_SetAttribute attrId (len v) v]
    returns [GPNVM_OK], the caller's buffer can hold [len v] bytes, and, in
    case [v] was found already stored under [attrId], the CRC entry of
    [attrId] was the checksum of [v], then the following
    [gpNvm_GetAttribute attrId] returns [GPNVM_OK], sets [*pLength] to
    [len v] and copies the bytes of [v] to the start of the buffer. *)
Theorem set_then_get s s' attrId v len0 buf :
  gpNvm_SetAttribute attrId (Z.of_nat (length v)) (Some v) s
  = Some (GPNVM_OK, s') →
  (length v <= length buf)%nat →
  (∀ attributeOffset,
     Mem.get (gpNvm_MemoryIndexTable s) attrId = Some attributeOffset →
     attributeOffset ≠ 0xFFFF →
     Mem.load (gpNvm_MemoryCache s) (attributeOffset + 1)
       (Z.of_nat (length v)) = Some v →
     Mem.get (gpNvm_AttributesCrcTable s) attrId
     = Some (gpNvm_CalculateChecksum v)) →
  gpNvm_GetAttribute attrId (Some len0) (Some buf) s'
  = Some (GPNVM_OK, Some (Z.of_nat (length v)),
          Some (v ++ drop (length v) buf)).
Proof.
  intros Hset Hcap Hcrc.
  destruct (readable_after_set s s' attrId v Hset Hcrc) as [off Hread].
  exact (get_readable s' attrId off _ v len0 buf Hread Hcap).
Qed.

(** ** Concrete runs *)

Lemma init_no_file : gpNvm_Init (startup no_file) = Some (GPNVM_OK, fresh).
Proof. vm_compute. reflexivity. Qed.

Lemma set_attr1 :
  gpNvm_SetAttribute 1 20 (Some attr1) fresh = Some (GPNVM_OK, with_attr1).
Proof. vm_compute. reflexivity. Qed.

Lemma set_attr2 :
  gpNvm_SetAttribute 2 1 (Some attr2) with_attr1 = Some (GPNVM_OK, with_attr2).
Proof. vm_compute. reflexivity. Qed.

Lemma bit_flip_run :
  gpNvm_Uninit with_attr2
  = Some (GPNVM_OK, state_of (gpNvm_Uninit with_attr2))
  ∧ Stdio.bytes closed_file !! 790%nat = Some 0xaa
  ∧ gpNvm_Init (startup bit_flipped_file) = Some (GPNVM_OK, reopened_flipped)
  ∧ well_typed reopened_flipped
  ∧ gpNvm_SetAttribute 2 1 (Some [0xab]) reopened_flipped
    = Some (GPNVM_OK, reopened_flipped)
  ∧ gpNvm_GetAttribute 2 (Some 0) (Some [0]) reopened_flipped
    = Some (GPNVM_ERROR_CORRUPTED_ATTRIBUTE, Some 0, Some [0]).
Proof.
  split; [vm_compute; reflexivity|].
  split; [vm_compute; reflexivity|].
  split; [vm_compute; reflexivity|].
  split; [apply (bool_decide_unpack _); vm_compute; exact I|].
  split; vm_compute; reflexivity.
Qed.

(** C2 as stated fails: a store reopened on a file in which one bit of a
    stored value was flipped accepts a [gpNvm_SetAttribute] with the bytes
    it now finds stored ([GPNVM_OK], nothing written), and the following
    [gpNvm_GetAttribute] returns [GPNVM_ERROR_CORRUPTED_ATTRIBUTE]. *)
Lemma set_then_get_counterexample :
  ¬ (∀ s s' attrId v len0 buf,
       gpNvm_FileDescriptor s ≠ fd_NULL →
       well_typed s →
       0 <= attrId < 256 →
       Z.of_nat (length v) <= 255 →
       (length v <= length buf)%nat →
       gpNvm_SetAttribute attrId (Z.of_nat (length v)) (Some v) s
       = Some (GPNVM_OK, s') →
       gpNvm_GetAttribute attrId (Some len0) (Some buf) s'
       = Some (GPNVM_OK, Some (Z.of_nat (length v)),
               Some (v ++ drop (length v) buf))).
Proof.
  intros Hclaim.
  destruct bit_flip_run as (_ & _ & _ & Hwt & Hset & Hget).
  specialize (Hclaim reopened_flipped reopened_flipped 2 [0xab] 0 [0]).
  rewrite Hget in Hclaim.
  enough (Some (GPNVM_ERROR_CORRUPTED_ATTRIBUTE, Some 0, Some [0])
          = Some (GPNVM_OK, Some (Z.of_nat (length [0xab])),
                  Some ([0xab] ++ drop (length [0xab]) [0]))) by discriminate.
  apply Hclaim.
  - vm_compute. discriminate.
  - exact Hwt.
  - lia.
  - vm_compute. discriminate.
  - vm_compute. lia.
  - exact Hset.
Qed.

Lemma set_then_get_witness :
  gpNvm_GetAttribute 1 (Some 0) (Some (replicate 40 0)) with_attr1
  = Some (GPNVM_OK, Some (Z.of_nat (length attr1)),
          Some (attr1 ++ drop (length attr1) (replicate 40 0))).
Proof.
  apply (set_then_get fresh with_attr1 1 attr1 0 (replicate 40 0)).
  - vm_compute. reflexivity.
  - vm_compute. lia.
  - intros off Hidx Hoff. vm_compute in Hidx. congruence.
Defined.

Lemma get_checks_integrity_witness :
  gpNvm_GetAttribute 2 (Some 0) (Some [0]) reopened_flipped
  = Some (GPNVM_ERROR_CORRUPTED_ATTRIBUTE, Some 0, Some [0])
  ∧ gpNvm_GetAttribute 2 (Some 0) (Some [0]) with_attr2
    = Some (GPNVM_OK, Some 1, Some (attr2 ++ drop (length attr2) [0])).
Proof.
  split.
  - apply (proj1 (get_checks_integrity reopened_flipped 2 21 1
                    (gpNvm_CalculateChecksum attr2) [0xab] 0 [0]
                    ltac:(vm_compute; discriminate)
                    ltac:(vm_compute; reflexivity)
                    ltac:(lia)
                    ltac:(vm_compute; reflexivity)
                    ltac:(vm_compute; reflexivity)
                    ltac:(vm_compute; reflexivity))).
    vm_compute. discriminate.
  - apply (proj2 (get_checks_integrity with_attr2 2 21 1
                    (gpNvm_CalculateChecksum attr2) attr2 0 [0]
                    ltac:(vm_compute; discriminate)
                    ltac:(vm_compute; reflexivity)
                    ltac:(lia)
                    ltac:(vm_compute; reflexivity)
                    ltac:(vm_compute; reflexivity)
                    ltac:(vm_compute; reflexivity))).
    + reflexivity.
    + vm_compute. lia.
Defined.

Lemma set_length_mismatch_witness :
  gpNvm_SetAttribute 1 19 (Some (take 19 attr1)) with_attr2
  = Some (GPNVM_ERROR_INVALID_PARAMETERS, with_attr2).
Proof.
  apply (set_length_mismatch with_attr2 1 19 (take 19 attr1) 0 20).
  - vm_compute. discriminate.
  - vm_compute. reflexivity.
  - lia.
  - vm_compute. reflexivity.
  - lia.
Defined.

Lemma set_identical_is_noop_witness :
  gpNvm_SetAttribute 1 (Z.of_nat (length attr1)) (Some attr1) with_attr1
  = Some (GPNVM_OK, with_attr1).
Proof.
  apply (proj2 set_identical_is_noop fresh with_attr1 1 attr1).
  vm_compute. reflexivity.
Defined.


(** ** The offset given to a new attribute *)

Lemma offset_step_lookup s acc cpt entry :
  gpNvm_MemoryIndexTable s !! cpt = Some entry →
  offset_step s acc cpt = add_record (gpNvm_MemoryCache s) acc entry.
Proof.
  intros Hcpt. unfold offset_step, add_record.
  destruct acc as [a|]; [|done]. cbn [mbind option_bind].
  rewrite Hcpt. done.
Qed.

(** Walking the counter over the table is walking over its entries. *)
Lemma foldl_offset_step s pre l acc :
  gpNvm_MemoryIndexTable s = pre ++ l →
  foldl (offset_step s) acc (seq (length pre) (length l))
  = foldl (add_record (gpNvm_MemoryCache s)) acc l.
Proof.
  revert pre acc. induction l as [|e l IH]; intros pre acc Hsplit; [done|].
  cbn [length seq foldl].
  rewrite (offset_step_lookup s acc (length pre) e).
  - specialize (IH (pre ++ [e]) (add_record (gpNvm_MemoryCache s) acc e)).
    rewrite length_app in IH. cbn [length] in IH.
    rewrite Nat.add_1_r in IH. apply IH.
    rewrite Hsplit, <- app_assoc. done.
  - rewrite Hsplit. rewrite lookup_app_r by lia.
    by rewrite Nat.sub_diag.
Qed.

Lemma next_offset_entries s :
  Z.of_nat (length (gpNvm_MemoryIndexTable s)) = GPNVM_MEMORY_INDEX_TABLE_SIZE →
  next_offset s
  = foldl (add_record (gpNvm_MemoryCache s)) (Some 0) (gpNvm_MemoryIndexTable s).
Proof.
  intros Hlen. unfold next_offset. rewrite <- Hlen, Nat2Z.id.
  by apply (foldl_offset_step s []).
Qed.

Lemma foldl_add_record_None cache l : foldl (add_record cache) None l = None.
Proof. induction l as [|e l IH]; [done|]. exact IH. Qed.

(** As long as the true sum fits in a [UInt16], the accumulator never
    wraps and ends on that sum. *)
Lemma foldl_add_record cache l a r :
  Forall is_UInt8 cache →
  0 <= a →
  a + 256 * Z.of_nat (length (filter (λ entry, entry ≠ 0xFFFF) l)) < 65536 →
  foldl (add_record cache) (Some a) l = Some r →
  r = a + foldr Z.add 0
            (record_size cache <$> filter (λ entry, entry ≠ 0xFFFF) l).
Proof.
  intros Hbytes. revert a.
  induction l as [|e l IH]; intros a Ha Hfit Hfold.
  - cbn in Hfold. injection Hfold as <-. cbn. lia.
  - cbn [foldl] in Hfold.
    destruct (decide (e ≠ 0xFFFF)) as [Hstored|Hfree].
    + rewrite filter_cons_True in Hfit |- * by done.
      cbn [length] in Hfit. rewrite fmap_cons. cbn [foldr].
      unfold add_record at 2 in Hfold. cbn [mbind option_bind] in Hfold.
      rewrite decide_True in Hfold by done.
      destruct (Mem.get cache e) as [len|] eqn:Hlen.
      * cbn [mbind option_bind] in Hfold.
        assert (is_UInt8 len) as Hbyte.
        { unfold Mem.get in Hlen. case_decide; [|done].
          by eapply Forall_lookup_1. }
        unfold is_UInt8 in Hbyte.
        unfold to_UInt16 in Hfold. rewrite Z.mod_small in Hfold by lia.
        apply IH in Hfold; [|lia|lia].
        change (record_size cache e) with (1 + default 0 (Mem.get cache e)).
        rewrite Hlen. simpl default. lia.
      * cbn [mbind option_bind] in Hfold.
        by rewrite foldl_add_record_None in Hfold.
    + rewrite filter_cons_False in Hfit |- * by done.
      unfold add_record at 2 in Hfold. cbn [mbind option_bind] in Hfold.
      rewrite decide_False in Hfold by done.
      by apply IH.
Qed.

(** With one slot free there are at most 255 records of at most 256
    bytes each. *)
Lemma stored_offsets_bound s attrId :
  Z.of_nat (length (gpNvm_MemoryIndexTable s)) = GPNVM_MEMORY_INDEX_TABLE_SIZE →
  Mem.get (gpNvm_MemoryIndexTable s) attrId = Some 0xFFFF →
  Z.of_nat (length (stored_offsets s)) <= 255.
Proof.
  intros Hlen Hfree. unfold stored_offsets.
  unfold Mem.get in Hfree. case_decide; [|done].
  apply list_elem_of_lookup_2 in Hfree.
  apply (length_filter_lt (λ entry, entry ≠ 0xFFFF)) in Hfree; [|by intros ?].
  rewrite index_table_size in Hlen. lia.
Qed.

Lemma next_offset_bytes_consumed s attrId off :
  well_typed s →
  Mem.get (gpNvm_MemoryIndexTable s) attrId = Some 0xFFFF →
  next_offset s = Some off →
  off = bytes_consumed s.
Proof.
  intros (_ & Hilen & _ & Hcache & _) Hfree Hnext.
  rewrite next_offset_entries in Hnext by done.
  pose proof (stored_offsets_bound s attrId Hilen Hfree) as Hcount.
  unfold stored_offsets in Hcount.
  apply foldl_add_record in Hnext; [|done|lia|lia].
  unfold bytes_consumed, stored_offsets. lia.
Qed.

(** C6. When [gpNvm_SetAttribute] inserts a new attribute (index entry
    [0xFFFF] before the call, [GPNVM_OK] returned), the offset it stores in
    the index table is the sum, over every index entry that is not the
    sentinel, of one plus the length byte at that entry's offset in the
    data cache.  In the fresh store, inserting the 20 bytes [0,1,..,19]
    under id 1 assigns offset 0, and then inserting one byte under id 2
    assigns offset 21. *)
Theorem insert_offset_is_bytes_consumed :
  (∀ s s' attrId length buf,
     well_typed s →
     Mem.get (gpNvm_MemoryIndexTable s) attrId = Some 0xFFFF →
     gpNvm_SetAttribute attrId length (Some buf) s = Some (GPNVM_OK, s') →
     Mem.get (gpNvm_MemoryIndexTable s') attrId = Some (bytes_consumed s))
  ∧ (gpNvm_SetAttribute 1 20 (Some attr1) fresh = Some (GPNVM_OK, with_attr1)
     ∧ Mem.get (gpNvm_MemoryIndexTable with_attr1) 1 = Some 0
     ∧ gpNvm_SetAttribute 2 1 (Some attr2) with_attr1
       = Some (GPNVM_OK, with_attr2)
     ∧ Mem.get (gpNvm_MemoryIndexTable with_attr2) 2 = Some 21).
Proof.
  split.
  - intros s s' attrId length buf Hwt Hfree Hset.
    destruct (set_ok_inv _ _ _ _ _ Hset) as (new & Hnew & Hpath).
    destruct Hpath as [Hsame | [Hupd | Hins]].
    + destruct Hsame as (off & Hidx & Hoff & _). congruence.
    + destruct Hupd as (off & old & cache & crc & Hidx & Hoff & _). congruence.
    + destruct Hins as (off & crc & index & cache1 & cache & _ & _ & Hnext
                        & _ & Hix & _ & _ & _ & ->).
      cbn. rewrite (get_set_eq _ _ _ _ Hix). f_equal.
      by eapply next_offset_bytes_consumed.
  - split; [exact set_attr1|].
    split; [vm_compute; reflexivity|].
    split; [exact set_attr2|].
    vm_compute. reflexivity.
Qed.

Lemma insert_offset_is_bytes_consumed_witness :
  Mem.get (gpNvm_MemoryIndexTable with_attr2) 2 = Some (bytes_consumed with_attr1).
Proof.
  apply (proj1 insert_offset_is_bytes_consumed with_attr1 with_attr2 2 1 attr2).
  - apply (bool_decide_unpack _). vm_compute. exact I.
  - vm_compute. reflexivity.
  - vm_compute. reflexivity.
Defined.

(** ** A new attribute that does not fit *)

(** What a call that returns [GPNVM_ERROR_MEMORY_FULL] has done: the CRC
    entry of [attrId] holds the checksum of the rejected value; the index
    table, the data cache and the file are as before. *)
Lemma set_memory_full_inv attrId length buf s s' :
  gpNvm_SetAttribute attrId length (Some buf) s
  = Some (GPNVM_ERROR_MEMORY_FULL, s') →
  ∃ new, Mem.load buf 0 length = Some new
    ∧ set_full attrId new s s'
    ∧ gpNvm_MemoryIndexTable s' = gpNvm_MemoryIndexTable s
    ∧ gpNvm_MemoryCache s' = gpNvm_MemoryCache s
    ∧ backing s' = backing s
    ∧ Mem.get (gpNvm_AttributesCrcTable s') attrId
      = Some (gpNvm_CalculateChecksum new).
Proof.
  intros Hset.
  assert (gpNvm_FileDescriptor s ≠ fd_NULL) as Hfd.
  { intros Hfd. unfold gpNvm_SetAttribute in Hset.
    by rewrite decide_True in Hset. }
  apply set_cases in Hset; [|done].
  inversion Hset as [| | | | new ? Hnew Hp]; subst.
  exists new. split; [done|]. split; [done|].
  destruct Hp as (off & crc & _ & Hcrc & _ & _ & ->).
  repeat split. by eapply get_set_eq.
Qed.

(** The attributes stored before a rejected insert are read as before. *)
Lemma memory_full_keeps_others attrId length buf s s' id pLength pValue :
  gpNvm_SetAttribute attrId length (Some buf) s
  = Some (GPNVM_ERROR_MEMORY_FULL, s') →
  id ≠ attrId →
  gpNvm_GetAttribute id pLength pValue s'
  = gpNvm_GetAttribute id pLength pValue s.
Proof.
  intros Hset Hid.
  destruct (set_memory_full_inv _ _ _ _ _ Hset)
    as (new & _ & (off & crc & _ & Hcrc & _ & _ & ->) & _).
  unfold gpNvm_GetAttribute. cbn.
  by rewrite (get_set_ne _ _ _ _ _ Hcrc Hid).
Qed.

(** An insert whose offset is still inside the data cache while the record
    ends beyond it is not rejected: the copy of the value runs past the end
    of [gpNvm_MemoryCache]. *)
Lemma insert_overrun attrId length buf new attributeOffset s :
  Z.of_nat (List.length (gpNvm_MemoryCache s)) = GPNVM_USER_MEMORY_SIZE →
  gpNvm_FileDescriptor s ≠ fd_NULL →
  Mem.get (gpNvm_MemoryIndexTable s) attrId = Some 0xFFFF →
  Mem.load buf 0 length = Some new →
  next_offset s = Some attributeOffset →
  attributeOffset < GPNVM_USER_MEMORY_SIZE →
  GPNVM_USER_MEMORY_SIZE < attributeOffset + 1 + length →
  gpNvm_SetAttribute attrId length (Some buf) s = None.
Proof.
  intros Hcap Hfd Hidx Hnew Hnext Hin Hover.
  pose proof (load_length _ _ _ _ Hnew) as Hlen.
  unfold gpNvm_SetAttribute. rewrite decide_False by done.
  rewrite Hidx. cbn [mbind option_bind].
  rewrite decide_False by (intros Hne; by apply Hne).
  rewrite Hnew. cbn [mbind option_bind].
  destruct (Mem.set (gpNvm_AttributesCrcTable s) attrId
              (gpNvm_CalculateChecksum new)) as [crc|]; [|done].
  cbn [mbind option_bind].
  rewrite next_offset_with_crc, Hnext. cbn [mbind option_bind].
  rewrite decide_False by lia.
  destruct (Mem.set (gpNvm_MemoryIndexTable (with_crc crc s)) attrId
              attributeOffset) as [index|]; [|done].
  cbn [mbind option_bind].
  change (gpNvm_MemoryCache (with_index index (with_crc crc s)))
    with (gpNvm_MemoryCache s).
  destruct (Mem.set (gpNvm_MemoryCache s) attributeOffset length)
    as [cache1|] eqn:Hc1; [|done].
  cbn [mbind option_bind].
  apply set_length in Hc1.
  unfold Mem.memcpy. rewrite decide_False; [done|].
  rewrite Hc1. lia.
Qed.

(** All these inserts return [GPNVM_OK]. *)
Lemma filling_run :
  gpNvm_SetAttribute 0 255 (Some (block 255)) fresh
  = Some (GPNVM_OK, insert_block 0 255 fresh)
  ∧ gpNvm_SetAttribute 1 255 (Some (block 255)) (insert_block 0 255 fresh)
    = Some (GPNVM_OK, insert_block 1 255 (insert_block 0 255 fresh))
  ∧ gpNvm_SetAttribute 2 255 (Some (block 255))
      (insert_block 1 255 (insert_block 0 255 fresh))
    = Some (GPNVM_OK,
            insert_block 2 255 (insert_block 1 255 (insert_block 0 255 fresh)))
  ∧ gpNvm_SetAttribute 3 255 (Some (block 255))
      (insert_block 2 255 (insert_block 1 255 (insert_block 0 255 fresh)))
    = Some (GPNVM_OK, four_blocks)
  ∧ gpNvm_SetAttribute 4 255 (Some (block 255)) four_blocks
    = Some (GPNVM_OK, full)
  ∧ gpNvm_SetAttribute 4 254 (Some (block 254)) four_blocks
    = Some (GPNVM_OK, one_byte_left).
Proof.
  split; [vm_compute; reflexivity|].
  split; [vm_compute; reflexivity|].
  split; [vm_compute; reflexivity|].
  split; [vm_compute; reflexivity|].
  split; vm_compute; reflexivity.
Qed.

(** C1, on the code.  With the data cache exactly full (offset 1280), the
    insert of one byte under the free id 5 returns
    [GPNVM_ERROR_MEMORY_FULL], yet the CRC entry of id 5 has changed from
    [0xFF] to [0xAC]; the index table, the data cache and the file are
    unchanged.  With one byte left (offset 1279, so 1279 + 1 + 1 exceeds
    1280), the same call is not rejected: it runs past the end of the data
    cache. *)
Theorem memory_full_not_atomic :
  (Mem.get (gpNvm_MemoryIndexTable full) 5 = Some 0xFFFF
   ∧ next_offset full = Some GPNVM_USER_MEMORY_SIZE
   ∧ gpNvm_SetAttribute 5 1 (Some [0]) full
     = Some (GPNVM_ERROR_MEMORY_FULL, full_rejected)
   ∧ Mem.get (gpNvm_AttributesCrcTable full) 5 = Some 0xFF
   ∧ Mem.get (gpNvm_AttributesCrcTable full_rejected) 5 = Some 0xAC
   ∧ gpNvm_MemoryIndexTable full_rejected = gpNvm_MemoryIndexTable full
   ∧ gpNvm_MemoryCache full_rejected = gpNvm_MemoryCache full
   ∧ backing full_rejected = backing full)
  ∧ (Mem.get (gpNvm_MemoryIndexTable one_byte_left) 5 = Some 0xFFFF
     ∧ next_offset one_byte_left = Some 1279
     ∧ gpNvm_SetAttribute 5 1 (Some [0]) one_byte_left = None).
Proof.
  split.
  - split; [vm_compute; reflexivity|].
    split; [vm_compute; reflexivity|].
    split; [vm_compute; reflexivity|].
    split; [vm_compute; reflexivity|].
    split; [vm_compute; reflexivity|].
    split; [vm_compute; reflexivity|].
    split; vm_compute; reflexivity.
  - split; [vm_compute; reflexivity|].
    split; vm_compute; reflexivity.
Qed.

(** ** The file: writing and reading back *)

Section FileFacts.
Implicit Types (data old : list Z) (pos n k : nat).

Lemma overwrite_length pos data old :
  (pos + length data <= length (Stdio.overwrite pos data old))%nat.
Proof.
  unfold Stdio.overwrite.
  rewrite !length_app, length_take, length_replicate, length_drop. lia.
Qed.

(** The bytes just written are found at the position of the write. *)
Lemma overwrite_read_same pos data old :
  take (length data) (drop pos (Stdio.overwrite pos data old)) = data.
Proof.
  unfold Stdio.overwrite.
  rewrite (app_assoc (take pos old)).
  rewrite drop_app_length'.
  - apply take_app_length.
  - rewrite length_app, length_take, length_replicate. lia.
Qed.

(** A write does not disturb what lies before it. *)
Lemma overwrite_read_before pos data old n k :
  (n + k <= pos)%nat → (n + k <= length old)%nat →
  take k (drop n (Stdio.overwrite pos data old)) = take k (drop n old).
Proof.
  intros Hpos Hold. apply list_eq. intros i.
  destruct (decide (i < k)%nat) as [Hi|Hi].
  - rewrite !lookup_take_lt, !lookup_drop by done.
    unfold Stdio.overwrite.
    rewrite lookup_app_l by (rewrite length_take; lia).
    apply lookup_take_lt. lia.
  - by rewrite !lookup_take_ge by lia.
Qed.

End FileFacts.

(** The [UInt16] array is recovered from its bytes. *)
Lemma UInt16s_of_bytes_of_UInt16s ws :
  Forall is_UInt16 ws → Mem.UInt16s_of_bytes (Mem.bytes_of_UInt16s ws) = ws.
Proof.
  induction 1 as [|w ws Hw _ IH]; [done|].
  cbn [Mem.bytes_of_UInt16s Mem.UInt16s_of_bytes]. rewrite IH. f_equal.
  unfold is_UInt16 in Hw.
  rewrite (Z.mod_small (w / 256)) by (split; [apply Z.div_pos|
    apply Z.div_lt_upper_bound]; lia).
  pose proof (Z.div_mod w 256). lia.
Qed.

Lemma bytes_of_UInt16s_length ws :
  length (Mem.bytes_of_UInt16s ws) = (2 * length ws)%nat.
Proof. induction ws as [|w ws IH]; [done|]. cbn [Mem.bytes_of_UInt16s length]. lia. Qed.

Lemma write_cache_content s :
  Stdio.content (write_cache s) = Some (written s).
Proof. reflexivity. Qed.

Section Written.
Context (s : nvm) (Hwt : well_typed s).

Lemma written_index :
  take 512 (written s) = Mem.bytes_of_UInt16s (gpNvm_MemoryIndexTable s).
Proof.
  destruct Hwt as (_ & Hilen & _).
  rewrite index_table_size in Hilen.
  pose proof (bytes_of_UInt16s_length (gpNvm_MemoryIndexTable s)) as Hb.
  pose proof (overwrite_length 0 (Mem.bytes_of_UInt16s (gpNvm_MemoryIndexTable s))
                (Stdio.bytes (backing s))) as H0.
  pose proof (overwrite_length 512 (gpNvm_AttributesCrcTable s)
                (Stdio.overwrite 0 (Mem.bytes_of_UInt16s (gpNvm_MemoryIndexTable s))
                   (Stdio.bytes (backing s)))) as H1.
  unfold written.
  rewrite <- (drop_0 (Stdio.overwrite 768 _ _)).
  rewrite overwrite_read_before by lia.
  rewrite overwrite_read_before by lia.
  replace 512%nat with (length (Mem.bytes_of_UInt16s (gpNvm_MemoryIndexTable s)))
    at 1 by lia.
  apply overwrite_read_same.
Qed.

Lemma written_crc :
  take 256 (drop 512 (written s)) = gpNvm_AttributesCrcTable s.
Proof.
  destruct Hwt as (_ & _ & Hclen & _).
  rewrite crcs_size in Hclen.
  pose proof (overwrite_length 512 (gpNvm_AttributesCrcTable s)
                (Stdio.overwrite 0 (Mem.bytes_of_UInt16s (gpNvm_MemoryIndexTable s))
                   (Stdio.bytes (backing s)))) as H1.
  unfold written.
  rewrite overwrite_read_before by lia.
  replace 256%nat with (length (gpNvm_AttributesCrcTable s)) at 1 by lia.
  apply overwrite_read_same.
Qed.

Lemma written_cache :
  take 1280 (drop 768 (written s)) = gpNvm_MemoryCache s.
Proof.
  destruct Hwt as (Hlen & _).
  rewrite user_memory_size in Hlen.
  unfold written.
  replace 1280%nat with (length (gpNvm_MemoryCache s)) at 1 by lia.
  apply overwrite_read_same.
Qed.

Lemma written_length : (2048 <= length (written s))%nat.
Proof.
  destruct Hwt as (Hlen & _).
  rewrite user_memory_size in Hlen.
  pose proof (overwrite_length 768 (gpNvm_MemoryCache s)
    (Stdio.overwrite 512 (gpNvm_AttributesCrcTable s)
       (Stdio.overwrite 0 (Mem.bytes_of_UInt16s (gpNvm_MemoryIndexTable s))
          (Stdio.bytes (backing s))))) as H2.
  unfold written. lia.
Qed.

End Written.

(** ** The typing invariant *)

Lemma crc8_shift_is_UInt8 crc : is_UInt8 (crc8_shift crc).
Proof.
  unfold crc8_shift, to_UInt8, is_UInt8.
  case_decide; apply Z.mod_pos_bound; lia.
Qed.

Lemma checksum_is_UInt8 data : is_UInt8 (gpNvm_CalculateChecksum data).
Proof.
  unfold gpNvm_CalculateChecksum.
  induction data as [|b data _] using rev_ind.
  - change (foldl crc8_byte 255 []) with 255. unfold is_UInt8. lia.
  - rewrite foldl_snoc. unfold crc8_byte. rewrite Nat.iter_succ.
    apply crc8_shift_is_UInt8.
Qed.

Section Preservation.
Context (P : Z → Prop).

Lemma load_Forall a off n bs :
  Forall P a → Mem.load a off n = Some bs → Forall P bs.
Proof.
  intros Ha. unfold Mem.load. case_decide; [|done].
  intros [= <-]. by apply Forall_take, Forall_drop.
Qed.

Lemma set_Forall a i x a' :
  Forall P a → P x → Mem.set a i x = Some a' → Forall P a'.
Proof.
  intros Ha Hx. unfold Mem.set. case_decide; [|done].
  intros [= <-]. by apply Forall_insert.
Qed.

Lemma memcpy_Forall a off src a' :
  Forall P a → Forall P src → Mem.memcpy a off src = Some a' → Forall P a'.
Proof.
  intros Ha Hsrc. unfold Mem.memcpy. case_decide; [|done].
  intros [= <-]. apply Forall_app_2; [by apply Forall_take|].
  apply Forall_app_2; [done|]. by apply Forall_drop.
Qed.

End Preservation.

(** [gpNvm_SetAttribute], given bytes, keeps the tables well typed. *)
Lemma set_ok_well_typed attrId length buf s s' :
  well_typed s →
  Forall is_UInt8 buf →
  is_UInt8 length →
  gpNvm_SetAttribute attrId length (Some buf) s = Some (GPNVM_OK, s') →
  well_typed s'.
Proof.
  intros Hwt Hbuf Hlength Hset.
  pose proof Hwt as (Hclen & Hilen & Hrlen & Hcache & Hindex & Hcrc).
  destruct (set_ok_inv _ _ _ _ _ Hset) as (new & Hnew & Hpath).
  pose proof (load_Forall _ _ _ _ _ Hbuf Hnew) as Hnewb.
  destruct Hpath as [Hsame | [Hupd | Hins]].
  - by destruct Hsame as (off & _ & _ & _ & _ & ->).
  - destruct Hupd as (off & old & cache & crc & _ & _ & _ & _
                      & _ & Hcp & Hset_crc & _ & ->).
    unfold well_typed. cbn.
    rewrite (memcpy_length _ _ _ _ Hcp), (set_length _ _ _ _ Hset_crc).
    split; [done|]. split; [done|]. split; [done|].
    split; [eapply memcpy_Forall; [exact Hcache|exact Hnewb|exact Hcp]|].
    split; [done|].
    eapply set_Forall; [exact Hcrc|apply checksum_is_UInt8|exact Hset_crc].
  - destruct Hins as (off & crc & index & cache1 & cache & _ & Hset_crc & _
                      & Hfull & Hix & Hc1 & Hcp & _ & ->).
    unfold well_typed. cbn.
    rewrite (memcpy_length _ _ _ _ Hcp), (set_length _ _ _ _ Hc1),
      (set_length _ _ _ _ Hix), (set_length _ _ _ _ Hset_crc).
    split; [done|]. split; [done|]. split; [done|].
    pose proof (get_Some_bounds _ _ _ (get_set_eq _ _ _ _ Hc1)) as Hb.
    rewrite user_memory_size in Hfull.
    split; [|split].
    + eapply memcpy_Forall; [|exact Hnewb|exact Hcp].
      eapply set_Forall; [exact Hcache|exact Hlength|exact Hc1].
    + eapply set_Forall; [exact Hindex| |exact Hix]. unfold is_UInt16. lia.
    + eapply set_Forall; [exact Hcrc|apply checksum_is_UInt8|exact Hset_crc].
Qed.

(** ** Closing and opening again *)

Lemma restart_starts_on s : starts_on (backing s) (restart s).
Proof. repeat split. Qed.

(** [gpNvm_Uninit] writes the cache into the file and closes the stream,
    but leaves [gpNvm_FileDescriptor] as it is: in the same run, the
    component still counts as initialised. *)
Lemma init_after_uninit s s' :
  gpNvm_Uninit s = Some (GPNVM_OK, s') →
  gpNvm_FileDescriptor s' = fd_closed
  ∧ Stdio.content (backing s') = Some (written s)
  ∧ gpNvm_MemoryCache s' = gpNvm_MemoryCache s
  ∧ gpNvm_MemoryIndexTable s' = gpNvm_MemoryIndexTable s
  ∧ gpNvm_AttributesCrcTable s' = gpNvm_AttributesCrcTable s
  ∧ gpNvm_Init s' = Some (GPNVM_ERROR_ALREADY_INITIALIZED, s').
Proof.
  unfold gpNvm_Uninit. case_decide as Hfd; [done|].
  destruct (flush s) as [s1|] eqn:Hfl; [|done].
  apply flush_Some in Hfl as [_ ->].
  cbn [mbind option_bind]. intros [= <-]. repeat split.
Qed.

Lemma fill_full got buf :
  length buf = length got → Stdio.fill got buf = got.
Proof.
  intros Hlen. unfold Stdio.fill.
  rewrite drop_ge by lia. apply app_nil_r.
Qed.

Lemma init_load_index s f :
  gpNvm_MemoryIndexTable (init_load s f)
  = Mem.UInt16s_of_bytes
      (Stdio.fill (take 512 (drop 0 (Stdio.bytes f)))
         (Mem.bytes_of_UInt16s (gpNvm_MemoryIndexTable s))).
Proof. reflexivity. Qed.

Lemma init_load_crc s f :
  gpNvm_AttributesCrcTable (init_load s f)
  = Stdio.fill (take 256 (drop 512 (Stdio.bytes f)))
      (gpNvm_AttributesCrcTable s).
Proof. reflexivity. Qed.

Lemma init_load_cache s f :
  gpNvm_MemoryCache (init_load s f)
  = Stdio.fill (take 1280 (drop 768 (Stdio.bytes f))) (gpNvm_MemoryCache s).
Proof. reflexivity. Qed.

(** Opening a file that holds a written cache loads that cache. *)
Lemma init_reloads s s3 :
  well_typed s →
  starts_on (write_cache s) s3 →
  ∃ s4, gpNvm_Init s3 = Some (GPNVM_OK, s4)
    ∧ gpNvm_FileDescriptor s4 = fd_stream
    ∧ gpNvm_MemoryCache s4 = gpNvm_MemoryCache s
    ∧ gpNvm_MemoryIndexTable s4 = gpNvm_MemoryIndexTable s
    ∧ gpNvm_AttributesCrcTable s4 = gpNvm_AttributesCrcTable s.
Proof.
  intros Hwt (Hfd & Hcont & Hclen & Hilen & Hrlen).
  rewrite write_cache_content in Hcont.
  pose proof Hwt as (Hclen' & Hilen' & Hrlen' & _ & Hindex & _).
  pose proof (written_length s Hwt) as Hsize.
  unfold gpNvm_Init. rewrite Hfd.
  rewrite decide_False by (intros Hne; by apply Hne).
  unfold Stdio.fopen_rb_plus. rewrite Hcont.
  rewrite decide_False.
  2: { unfold Stdio.ftell, Stdio.fseek_END, Stdio.bytes. cbn. lia. }
  eexists. split; [reflexivity|]. split; [reflexivity|].
  rewrite init_load_index, init_load_crc, init_load_cache.
  unfold Stdio.fseek_END, Stdio.bytes. cbn [Stdio.content default].
  unfold id. rewrite drop_0, (written_index s Hwt), (written_crc s Hwt),
    (written_cache s Hwt).
  rewrite user_memory_size in Hclen, Hclen'.
  rewrite index_table_size in Hilen, Hilen'.
  rewrite crcs_size in Hrlen, Hrlen'.
  rewrite !fill_full by (rewrite ?bytes_of_UInt16s_length; lia).
  split; [done|]. split; [|done].
  by apply UInt16s_of_bytes_of_UInt16s.
Qed.

(** [gpNvm_GetAttribute] only looks at the three tables and at whether
    the descriptor is NULL. *)
Lemma get_same_tables attrId pLength pValue s s' :
  gpNvm_FileDescriptor s ≠ fd_NULL →
  gpNvm_FileDescriptor s' ≠ fd_NULL →
  gpNvm_MemoryCache s' = gpNvm_MemoryCache s →
  gpNvm_MemoryIndexTable s' = gpNvm_MemoryIndexTable s →
  gpNvm_AttributesCrcTable s' = gpNvm_AttributesCrcTable s →
  gpNvm_GetAttribute attrId pLength pValue s'
  = gpNvm_GetAttribute attrId pLength pValue s.
Proof.
  intros Hfd Hfd' Hc Hi Hr. unfold gpNvm_GetAttribute.
  rewrite Hc, Hi, Hr. by rewrite !decide_False.
Qed.




(** ** Stores without damage *)

Lemma bytes_consumed_total s :
  bytes_consumed s = total (gpNvm_MemoryCache s) (gpNvm_MemoryIndexTable s).
Proof. reflexivity. Qed.

Lemma total_app cache l1 l2 :
  total cache (l1 ++ l2) = total cache l1 + total cache l2.
Proof.
  unfold total. rewrite filter_app, fmap_app.
  induction (record_size cache <$> filter (λ entry, entry ≠ 65535) l1)
    as [|x xs IH]; cbn [foldr app]; lia.
Qed.

Lemma total_cons_free cache l : total cache (0xFFFF :: l) = total cache l.
Proof. unfold total. by rewrite filter_cons_False by (intros Hne; by apply Hne). Qed.

Lemma total_cons_stored cache entry l :
  entry ≠ 0xFFFF →
  total cache (entry :: l) = record_size cache entry + total cache l.
Proof. intros Hne. unfold total. by rewrite filter_cons_True. Qed.

Lemma total_ext cache cache' l :
  (∀ i entry, l !! i = Some entry → entry ≠ 0xFFFF →
     Mem.get cache' entry = Mem.get cache entry) →
  total cache' l = total cache l.
Proof.
  induction l as [|e l IH]; intros Hsame; [done|].
  assert (total cache' l = total cache l) as Hl.
  { apply IH. intros i entry Hi. apply (Hsame (S i)). exact Hi. }
  destruct (decide (e = 0xFFFF)) as [->|Hne].
  - by rewrite !total_cons_free.
  - rewrite !total_cons_stored by done. rewrite Hl.
    unfold record_size. by rewrite (Hsame 0%nat e).
Qed.

(** A free slot that receives an offset adds one record. *)
Lemma total_insert cache index i off :
  index !! i = Some 0xFFFF → off ≠ 0xFFFF →
  total cache (<[i := off]> index) = total cache index + record_size cache off.
Proof.
  intros Hfree Hoff.
  rewrite insert_take_drop by (by eapply lookup_lt_Some).
  rewrite <- (take_drop_middle index i 0xFFFF Hfree) at 3.
  rewrite !total_app, total_cons_free, total_cons_stored by done. lia.
Qed.

Lemma load_set_outside a i x a' off n :
  Mem.set a i x = Some a' →
  i < off ∨ off + n <= i →
  Mem.load a' off n = Mem.load a off n.
Proof.
  intros Hset Hout. pose proof (set_length _ _ _ _ Hset) as Hlen.
  unfold Mem.load. rewrite Hlen. case_decide as Hb; [|done]. f_equal.
  apply list_eq. intros k.
  destruct (decide (k < Z.to_nat n)%nat) as [Hk|Hk].
  - rewrite !lookup_take_lt, !lookup_drop by done.
    pose proof (get_set_ne a i (Z.of_nat (Z.to_nat off + k)) x a' Hset) as Hget.
    unfold Mem.get in Hget. rewrite !decide_True, !Nat2Z.id in Hget by lia.
    apply Hget. lia.
  - by rewrite !lookup_take_ge by lia.
Qed.

Lemma get_lookup (a : list Z) (i : nat) :
  Mem.get a (Z.of_nat i) = a !! i.
Proof. unfold Mem.get. rewrite decide_True by lia. by rewrite Nat2Z.id. Qed.

Lemma well_typed_length_byte s off len :
  well_typed s → Mem.get (gpNvm_MemoryCache s) off = Some len → 0 <= len < 256.
Proof.
  intros (_ & _ & _ & Hcache & _) Hget. unfold Mem.get in Hget.
  case_decide; [|done]. by apply (Forall_lookup_1 _ _ _ _ Hcache Hget).
Qed.

(** The store that [gpNvm_Init] builds on an empty file holds no record. *)
Lemma init_fresh_sound f : sound (init_fresh f).
Proof.
  split; [apply init_fresh_well_typed|].
  assert (∀ id off, Mem.get (gpNvm_MemoryIndexTable (init_fresh f)) id = Some off →
            off = 0xFFFF) as Hfree.
  { intros id off. rewrite init_fresh_index. unfold Mem.get.
    case_decide; [|done]. intros Hl.
    apply lookup_replicate in Hl. by destruct Hl as [-> _]. }
  split.
  - intros id off Hidx Hoff. by apply Hfree in Hidx.
  - intros id id' off off' len len' _ Hidx Hoff. by apply Hfree in Hidx.
Qed.

Section SoundUpdate.
Context (s : nvm) (attrId length : Z) (new : list Z) (s' : nvm).
Context (Hsound : sound s) (Hwt' : well_typed s').
Context (Hlen : Z.of_nat (List.length new) = length).
Context (Hupd : set_update attrId length new s s').

Lemma sound_update : sound s'.
Proof.
  destruct Hsound as (Hwt & Hrec & Hdisj).
  destruct Hupd as (off & old & cache & crc & Hidx & Hoff & Hl & Hold
                    & Hne & Hcp & Hcrc & Hst & Hs').
  assert (gpNvm_MemoryCache s' = cache) as Hc' by (by rewrite Hs').
  assert (gpNvm_MemoryIndexTable s' = gpNvm_MemoryIndexTable s) as Hi'
    by (by rewrite Hs').
  assert (gpNvm_AttributesCrcTable s' = crc) as Hr' by (by rewrite Hs').
  assert (∀ j, ¬ (off + 1 <= j <= off + length) →
            Mem.get cache j = Mem.get (gpNvm_MemoryCache s) j) as Hframe.
  { intros j Hj. apply (get_memcpy_outside _ _ _ _ j Hcp). lia. }
  (* no index entry points into the overwritten bytes *)
  assert (∀ id e, Mem.get (gpNvm_MemoryIndexTable s) id = Some e → e ≠ 0xFFFF →
            ¬ (off + 1 <= e <= off + length)) as Hout.
  { intros id e He Hstored.
    destruct (decide (id = attrId)) as [->|Hid]; [by (assert (e = off) by congruence; lia)|].
    destruct (Hrec id e He Hstored) as (len & v & [Hlen_e _] & _).
    pose proof (well_typed_length_byte s e len Hwt Hlen_e).
    destruct (Hdisj id attrId e off len length Hid He Hstored Hidx Hoff Hlen_e Hl);
      lia. }
  assert (bytes_consumed s' = bytes_consumed s) as Hsum.
  { rewrite !bytes_consumed_total, Hc', Hi'. apply total_ext.
    intros i e Hi He. apply Hframe.
    apply (Hout (Z.of_nat i) e); [|done]. by rewrite get_lookup. }
  split; [done|]. split.
  - intros id e He Hstored. rewrite Hi' in He. rewrite Hsum.
    unfold record_at. rewrite Hc', Hr'.
    destruct (Hrec id e He Hstored) as (len & v & [Hlen_e Hv] & Hbound & Hcrc_e).
    destruct (decide (id = attrId)) as [->|Hid].
    + assert (e = off) as -> by congruence.
      assert (len = length) as -> by congruence.
      exists length, new. split; [split|split].
      * rewrite Hframe by lia. done.
      * rewrite <- Hlen. exact (load_memcpy _ _ _ _ Hcp).
      * done.
      * by eapply get_set_eq.
    + exists len, v.
      pose proof (well_typed_length_byte s e len Hwt Hlen_e).
      assert (e + 1 + len <= off ∨ off + 1 + length <= e) as Hd.
      { destruct (Hdisj id attrId e off len length Hid He Hstored Hidx Hoff
                    Hlen_e Hl); lia. }
      split; [split|split].
      * rewrite Hframe by lia. done.
      * rewrite (load_memcpy_outside _ _ _ _ (e + 1) len Hcp) by lia. done.
      * done.
      * by rewrite (get_set_ne _ _ _ _ _ Hcrc Hid).
  - intros id id' e e' len len' Hid He Hstored He' Hstored' Hl_e Hl_e'.
    rewrite Hi' in He, He'. rewrite Hc' in Hl_e, Hl_e'.
    rewrite Hframe in Hl_e by (by eapply Hout).
    rewrite Hframe in Hl_e' by (by eapply Hout).
    by eapply (Hdisj id id').
Qed.

End SoundUpdate.

Section SoundInsert.
Context (s : nvm) (attrId length : Z) (new : list Z) (s' : nvm).
Context (Hsound : sound s) (Hwt' : well_typed s').
Context (Hlen : Z.of_nat (List.length new) = length).
Context (Hins : set_insert attrId length new s s').

Lemma sound_insert : sound s'.
Proof.
  destruct Hsound as (Hwt & Hrec & Hdisj).
  destruct Hins as (off & crc & index & cache1 & cache & Hidx & Hcrc & Hnext
                    & Hfull & Hix & Hc1 & Hcp & Hst & Hs').
  assert (gpNvm_MemoryCache s' = cache) as Hc' by (by rewrite Hs').
  assert (gpNvm_MemoryIndexTable s' = index) as Hi' by (by rewrite Hs').
  assert (gpNvm_AttributesCrcTable s' = crc) as Hr' by (by rewrite Hs').
  pose proof (next_offset_bytes_consumed s attrId off Hwt Hidx Hnext) as Hoff.
  pose proof (get_Some_bounds _ _ _ (get_set_eq _ _ _ _ Hc1)) as Hb.
  rewrite user_memory_size in Hfull.
  assert (Mem.get cache off = Some length) as Hlen_off.
  { rewrite (get_memcpy_outside _ _ _ _ off Hcp) by lia.
    by eapply get_set_eq. }
  assert (∀ j, j < off → Mem.get cache j = Mem.get (gpNvm_MemoryCache s) j)
    as Hframe.
  { intros j Hj. rewrite (get_memcpy_outside _ _ _ _ j Hcp) by lia.
    apply (get_set_ne _ _ _ _ _ Hc1). lia. }
  assert (∀ o n, o + n <= off →
            Mem.load cache o n = Mem.load (gpNvm_MemoryCache s) o n) as Hloads.
  { intros o n Hon. rewrite (load_memcpy_outside _ _ _ _ o n Hcp) by lia.
    apply (load_set_outside _ _ _ _ _ _ Hc1). lia. }
  (* the records of [s] lie below the new one *)
  assert (∀ id e len, Mem.get (gpNvm_MemoryIndexTable s) id = Some e →
            e ≠ 0xFFFF → Mem.get (gpNvm_MemoryCache s) e = Some len →
            0 <= len ∧ e + 1 + len <= off) as Hbelow.
  { intros id e len He Hstored Hlen_e.
    destruct (Hrec id e He Hstored) as (len0 & v & [Hlen0 _] & Hbound & _).
    pose proof (well_typed_length_byte s e len Hwt Hlen_e).
    assert (len0 = len) as -> by congruence. lia. }
  assert (∀ id e, Mem.get (gpNvm_MemoryIndexTable s) id = Some e →
            e ≠ 0xFFFF → e < off) as Hlt.
  { intros id e He Hstored.
    destruct (Hrec id e He Hstored) as (len & v & [Hlen_e _] & _).
    destruct (Hbelow id e len He Hstored Hlen_e). lia. }
  assert (0 <= length) as Hpos.
  { rewrite <- Hlen. lia. }
  assert (bytes_consumed s' = off + 1 + length) as Hsum.
  { rewrite bytes_consumed_total, Hc', Hi'.
    unfold Mem.set in Hix. case_decide as Hin; [|done]. injection Hix as <-.
    rewrite total_insert; [| |lia].
    - change (record_size cache off)
        with (1 + default 0 (Mem.get cache off)).
      rewrite Hlen_off. simpl default.
      rewrite (total_ext (gpNvm_MemoryCache s) cache).
      + rewrite <- bytes_consumed_total. lia.
      + intros i e Hi He. apply Hframe.
        apply (Hlt (Z.of_nat i) e); [|done]. by rewrite get_lookup.
    - unfold Mem.get in Hidx. by rewrite decide_True in Hidx by lia. }
  split; [done|]. split.
  - intros id e He Hstored. rewrite Hi' in He. rewrite Hsum.
    unfold record_at. rewrite Hc', Hr'.
    destruct (decide (id = attrId)) as [->|Hid].
    + rewrite (get_set_eq _ _ _ _ Hix) in He. injection He as <-.
      exists length, new. split; [split|split].
      * done.
      * rewrite <- Hlen. exact (load_memcpy _ _ _ _ Hcp).
      * lia.
      * by eapply get_set_eq.
    + rewrite (get_set_ne _ _ _ _ _ Hix Hid) in He.
      destruct (Hrec id e He Hstored) as (len & v & [Hlen_e Hv] & _ & Hcrc_e).
      destruct (Hbelow id e len He Hstored Hlen_e) as [Hlen0 Hend].
      exists len, v. split; [split|split].
      * rewrite Hframe by lia. done.
      * rewrite Hloads by lia. done.
      * lia.
      * by rewrite (get_set_ne _ _ _ _ _ Hcrc Hid).
  - intros id id' e e' len len' Hid He Hstored He' Hstored' Hl_e Hl_e'.
    rewrite Hi' in He, He'. rewrite Hc' in Hl_e, Hl_e'.
    destruct (decide (id = attrId)) as [->|Hida];
      destruct (decide (id' = attrId)) as [->|Hidb]; [done| | |].
    + rewrite (get_set_eq _ _ _ _ Hix) in He. injection He as <-.
      rewrite (get_set_ne _ _ _ _ _ Hix Hidb) in He'.
      rewrite Hframe in Hl_e' by (by eapply Hlt).
      destruct (Hbelow id' e' len' He' Hstored' Hl_e'). lia.
    + rewrite (get_set_eq _ _ _ _ Hix) in He'. injection He' as <-.
      rewrite (get_set_ne _ _ _ _ _ Hix Hida) in He.
      rewrite Hframe in Hl_e by (by eapply Hlt).
      destruct (Hbelow id e len He Hstored Hl_e). lia.
    + rewrite (get_set_ne _ _ _ _ _ Hix Hida) in He.
      rewrite (get_set_ne _ _ _ _ _ Hix Hidb) in He'.
      rewrite Hframe in Hl_e by (by eapply Hlt).
      rewrite Hframe in Hl_e' by (by eapply Hlt).
      by eapply (Hdisj id id').
Qed.

End SoundInsert.

Lemma sound_full s attrId new s' :
  sound s → set_full attrId new s s' → sound s'.
Proof.
  intros (Hwt & Hrec & Hdisj) (off & crc & Hidx & Hcrc & _ & _ & ->).
  split; [|split].
  - destruct Hwt as (Hclen & Hilen & Hrlen & Hcache & Hindex & Hcrct).
    unfold well_typed. cbn. rewrite (set_length _ _ _ _ Hcrc).
    repeat split; try done.
    eapply set_Forall; [exact Hcrct|apply checksum_is_UInt8|exact Hcrc].
  - intros id e He Hstored. cbn in He.
    destruct (Hrec id e He Hstored) as (len & v & Hr & Hbound & Hcrc_e).
    exists len, v. split; [done|]. split; [done|]. cbn.
    rewrite (get_set_ne _ _ _ _ _ Hcrc); [done|]. congruence.
  - exact Hdisj.
Qed.

(** Every call of [gpNvm_SetAttribute] with bytes keeps the store sound. *)
Theorem set_sound attrId length buf s r s' :
  sound s →
  Forall is_UInt8 buf →
  is_UInt8 length →
  gpNvm_SetAttribute attrId length (Some buf) s = Some (r, s') →
  sound s'.
Proof.
  intros Hsound Hbuf Hlength Hset.
  destruct (decide (gpNvm_FileDescriptor s = fd_NULL)) as [Hfd|Hfd].
  { unfold gpNvm_SetAttribute in Hset. rewrite decide_True in Hset by done.
    by injection Hset as <- <-. }
  pose proof (set_cases _ _ _ _ _ _ Hset Hfd) as Hcase.
  inversion Hcase as [? Hp | new ? Hnew Hp | new ? Hnew Hp | new ? Hnew Hp
                      | new ? Hnew Hp]; subst.
  - by destruct Hp as (off & len & _ & _ & _ & _ & ->).
  - by destruct Hp as (off & _ & _ & _ & _ & ->).
  - apply (sound_update s attrId length new s'); try done.
    + destruct Hsound as [Hwt _]. by eapply set_ok_well_typed.
    + by eapply load_length.
  - apply (sound_insert s attrId length new s'); try done.
    + destruct Hsound as [Hwt _]. by eapply set_ok_well_typed.
    + by eapply load_length.
  - by eapply sound_full.
Qed.


(** Nothing that [gpNvm_SetAttribute] does to a store built on an empty
    file damages it. *)
Theorem grown_sound s : grown s → sound s.
Proof.
  induction 1 as [f | s attrId length buf r s' _ IH Hbuf Hlength Hset].
  - apply init_fresh_sound.
  - by eapply set_sound.
Qed.


(** ** Results of the calls *)

(** A call either leaves the state alone or was made on an initialised
    component with a buffer. *)
Lemma set_cases_any attrId length pValue s r s' :
  gpNvm_SetAttribute attrId length pValue s = Some (r, s') →
  (gpNvm_FileDescriptor s = fd_NULL
   ∧ r = GPNVM_ERROR_NOT_INITIALIZED ∧ s' = s)
  ∨ (gpNvm_FileDescriptor s ≠ fd_NULL ∧ pValue = None
     ∧ r = GPNVM_ERROR_INVALID_PARAMETERS ∧ s' = s)
  ∨ (∃ buf, gpNvm_FileDescriptor s ≠ fd_NULL ∧ pValue = Some buf
       ∧ set_outcome attrId length buf s r s').
Proof.
  intros Hset.
  destruct (decide (gpNvm_FileDescriptor s = fd_NULL)) as [Hfd|Hfd].
  { left. unfold gpNvm_SetAttribute in Hset.
    rewrite decide_True in Hset by done. by injection Hset as <- <-. }
  right. destruct pValue as [buf|].
  - right. exists buf. split; [done|]. split; [done|]. by apply set_cases.
  - left. unfold gpNvm_SetAttribute in Hset.
    rewrite decide_False in Hset by done. by injection Hset as <- <-.
Qed.

(** What each way of a call does to the descriptor, the index table, the
    data cache and the file when the result is not [GPNVM_OK]. *)
Lemma set_outcome_error attrId length buf s r s' :
  set_outcome attrId length buf s r s' →
  r ≠ GPNVM_OK →
  (r = GPNVM_ERROR_INVALID_PARAMETERS ∧ s' = s)
  ∨ (r = GPNVM_ERROR_MEMORY_FULL
     ∧ ∃ new, Mem.load buf 0 length = Some new ∧ set_full attrId new s s').
Proof.
  intros Hcase Hr.
  inversion Hcase as [? Hp | new ? Hnew Hp | new ? Hnew Hp | new ? Hnew Hp
                      | new ? Hnew Hp]; subst; try done.
  - left. by destruct Hp as (off & len & _ & _ & _ & _ & ->).
  - right. split; [done|]. by exists new.
Qed.

(** X1: results of gpNvm_SetAttribute.  The call returns [GPNVM_OK],
    [GPNVM_ERROR_NOT_INITIALIZED], [GPNVM_ERROR_INVALID_PARAMETERS] or
    [GPNVM_ERROR_MEMORY_FULL] and nothing else;
    [GPNVM_ERROR_NOT_INITIALIZED] exactly when the descriptor is NULL;
    whenever the result is not [GPNVM_OK], the descriptor, the index table,
    the data cache and the file are as before, and the CRC table too unless
    the result is [GPNVM_ERROR_MEMORY_FULL]. *)
Theorem set_result_codes attrId length pValue s r s' :
  gpNvm_SetAttribute attrId length pValue s = Some (r, s') →
  (r = GPNVM_OK ∨ r = GPNVM_ERROR_NOT_INITIALIZED
   ∨ r = GPNVM_ERROR_INVALID_PARAMETERS ∨ r = GPNVM_ERROR_MEMORY_FULL)
  ∧ (r = GPNVM_ERROR_NOT_INITIALIZED ↔ gpNvm_FileDescriptor s = fd_NULL)
  ∧ (r ≠ GPNVM_OK →
     gpNvm_FileDescriptor s' = gpNvm_FileDescriptor s
     ∧ gpNvm_MemoryIndexTable s' = gpNvm_MemoryIndexTable s
     ∧ gpNvm_MemoryCache s' = gpNvm_MemoryCache s
     ∧ backing s' = backing s)
  ∧ (r ≠ GPNVM_OK → r ≠ GPNVM_ERROR_MEMORY_FULL → s' = s).
Proof.
  intros Hset.
  destruct (set_cases_any _ _ _ _ _ _ Hset)
    as [(Hfd & -> & ->) | [(Hfd & _ & -> & ->) | (buf & Hfd & _ & Hcase)]].
  - split; [by right; left|]. split; [done|]. by split.
  - split; [by right; right; left|]. split; [by split|]. by split.
  - assert (r ≠ GPNVM_ERROR_NOT_INITIALIZED) as Hni
      by (inversion Hcase; subst; discriminate).
    split; [inversion Hcase; subst; tauto|].
    split; [by split|]. split.
    + intros Hr.
      destruct (set_outcome_error _ _ _ _ _ _ Hcase Hr)
        as [[_ ->] | [_ (new & _ & off & crc & _ & _ & _ & _ & ->)]]; done.
    + intros Hr Hfull.
      by destruct (set_outcome_error _ _ _ _ _ _ Hcase Hr) as [[_ ->] | [? _]].
Qed.

Lemma set_result_codes_witness :
  gpNvm_FileDescriptor full_rejected = gpNvm_FileDescriptor full
  ∧ gpNvm_MemoryIndexTable full_rejected = gpNvm_MemoryIndexTable full
  ∧ gpNvm_MemoryCache full_rejected = gpNvm_MemoryCache full
  ∧ backing full_rejected = backing full.
Proof.
  apply (proj1 (proj2 (proj2
    (set_result_codes 5 1 (Some [0]) full GPNVM_ERROR_MEMORY_FULL
       full_rejected ltac:(vm_compute; reflexivity))))).
  discriminate.
Defined.

(** X2: results of gpNvm_GetAttribute.  The call returns [GPNVM_OK],
    [GPNVM_ERROR_NOT_INITIALIZED], [GPNVM_ERROR_INVALID_PARAMETERS],
    [GPNVM_ERROR_INVALID_ATTRIBUTE_ID] or
    [GPNVM_ERROR_CORRUPTED_ATTRIBUTE] and nothing else; whenever the result
    is not [GPNVM_OK], [*pLength] and the value buffer are as the caller
    passed them; with [GPNVM_OK], the length delivered is the length byte
    of the record, the buffer starts with the value bytes of the record and
    keeps its other bytes, and the CRC entry is the checksum of the value
    delivered. *)
Theorem get_result_codes attrId pLength pValue s r pLength' pValue' :
  gpNvm_GetAttribute attrId pLength pValue s = Some (r, pLength', pValue') →
  (r = GPNVM_OK ∨ r = GPNVM_ERROR_NOT_INITIALIZED
   ∨ r = GPNVM_ERROR_INVALID_PARAMETERS
   ∨ r = GPNVM_ERROR_INVALID_ATTRIBUTE_ID
   ∨ r = GPNVM_ERROR_CORRUPTED_ATTRIBUTE)
  ∧ (r ≠ GPNVM_OK → pLength' = pLength ∧ pValue' = pValue)
  ∧ (r = GPNVM_OK →
     ∃ off len v buf,
       pValue = Some buf
       ∧ readable s attrId off len v
       ∧ pLength' = Some len
       ∧ pValue' = Some (v ++ drop (length v) buf)).
Proof.
  unfold gpNvm_GetAttribute. intros H.
  case_decide as Hfd.
  { injection H as <- <- <-. split; [tauto|]. by split. }
  destruct pLength as [len0|], pValue as [buf|];
    try (injection H as <- <- <-; split; [tauto|]; by split).
  destruct (Mem.get (gpNvm_MemoryIndexTable s) attrId) as [off|] eqn:Hidx;
    [|done].
  cbn [mbind option_bind] in H. case_decide as Hoff.
  { injection H as <- <- <-. split; [tauto|]. by split. }
  destruct (Mem.get (gpNvm_AttributesCrcTable s) attrId) as [crc|] eqn:Hcrc;
    [|done].
  cbn [mbind option_bind] in H.
  destruct (Mem.get (gpNvm_MemoryCache s) off) as [len|] eqn:Hlen; [|done].
  cbn [mbind option_bind] in H.
  destruct (Mem.load (gpNvm_MemoryCache s) (off + 1) len) as [v|] eqn:Hv;
    [|done].
  cbn [mbind option_bind] in H. case_decide as Hsum.
  { injection H as <- <- <-. split; [tauto|]. by split. }
  destruct (Mem.memcpy buf 0 v) as [buf'|] eqn:Hcp; [|done].
  cbn [mbind option_bind] in H. injection H as <- <- <-.
  split; [tauto|]. split; [done|]. intros _.
  exists off, len, v, buf. split; [done|].
  split; [unfold readable; by rewrite Hsum|]. split; [done|].
  unfold Mem.memcpy in Hcp. case_decide as Hb; [|done].
  by injection Hcp as <-.
Qed.

Lemma get_result_codes_witness :
  ∃ off len v buf,
    Some [0] = Some buf
    ∧ readable with_attr2 2 off len v
    ∧ Some 1 = Some len
    ∧ Some [0xaa] = Some (v ++ drop (length v) buf).
Proof.
  apply (proj2 (proj2
    (get_result_codes 2 (Some 0) (Some [0]) with_attr2
       GPNVM_OK (Some 1) (Some [0xaa])
       ltac:(vm_compute; reflexivity)))).
  reflexivity.
Defined.

(** ** Lifecycle *)

(** X3: before gpNvm_Init.  As long as [gpNvm_FileDescriptor] is NULL,
    [gpNvm_GetAttribute], [gpNvm_SetAttribute] and [gpNvm_Uninit] return
    [GPNVM_ERROR_NOT_INITIALIZED] whatever their arguments (NULL pointers
    included) and whatever the arrays hold, and leave the state and the
    caller's objects as they are. *)
Theorem not_initialised s attrId length pLength pValue :
  gpNvm_FileDescriptor s = fd_NULL →
  gpNvm_GetAttribute attrId pLength pValue s
  = Some (GPNVM_ERROR_NOT_INITIALIZED, pLength, pValue)
  ∧ gpNvm_SetAttribute attrId length pValue s
    = Some (GPNVM_ERROR_NOT_INITIALIZED, s)
  ∧ gpNvm_Uninit s = Some (GPNVM_ERROR_NOT_INITIALIZED, s).
Proof.
  intros Hfd.
  unfold gpNvm_GetAttribute, gpNvm_SetAttribute, gpNvm_Uninit.
  by rewrite !decide_True.
Qed.

Lemma not_initialised_witness :
  gpNvm_GetAttribute 1 (Some 0) None (startup no_file)
  = Some (GPNVM_ERROR_NOT_INITIALIZED, Some 0, None)
  ∧ gpNvm_SetAttribute 1 20 None (startup no_file)
    = Some (GPNVM_ERROR_NOT_INITIALIZED, startup no_file)
  ∧ gpNvm_Uninit (startup no_file)
    = Some (GPNVM_ERROR_NOT_INITIALIZED, startup no_file).
Proof.
  apply (not_initialised (startup no_file) 1 20 (Some 0) None).
  reflexivity.
Defined.

(** X4: the ways gpNvm_Init ends.  With the descriptor not NULL it returns
    [GPNVM_ERROR_ALREADY_INITIALIZED]; with the descriptor NULL, no file
    and no way to create one it returns [GPNVM_ERROR_OPENING_FILE]; in both
    cases the state is unchanged.  In every other case it returns
    [GPNVM_OK] and the stream is open at position 0.  So a second
    [gpNvm_Init] after a successful one is refused. *)
Theorem init_outcomes s :
  (gpNvm_FileDescriptor s ≠ fd_NULL →
   gpNvm_Init s = Some (GPNVM_ERROR_ALREADY_INITIALIZED, s))
  ∧ (gpNvm_FileDescriptor s = fd_NULL →
     Stdio.content (backing s) = None →
     Stdio.creatable (backing s) = false →
     gpNvm_Init s = Some (GPNVM_ERROR_OPENING_FILE, s))
  ∧ (gpNvm_FileDescriptor s = fd_NULL →
     Stdio.content (backing s) ≠ None ∨ Stdio.creatable (backing s) = true →
     ∃ s', gpNvm_Init s = Some (GPNVM_OK, s')
       ∧ gpNvm_FileDescriptor s' = fd_stream
       ∧ Stdio.position (backing s') = 0
       ∧ Stdio.content (backing s') ≠ None
       ∧ gpNvm_Init s' = Some (GPNVM_ERROR_ALREADY_INITIALIZED, s')).
Proof.
  split; [|split].
  - intros Hfd. unfold gpNvm_Init. by rewrite decide_True.
  - intros Hfd Hnone Hro. unfold gpNvm_Init.
    rewrite decide_False by (by rewrite Hfd; intros Hne; apply Hne).
    unfold Stdio.fopen_rb_plus, Stdio.fopen_wb. by rewrite Hnone, Hro.
  - intros Hfd Hcan. unfold gpNvm_Init at 1.
    rewrite decide_False by (by rewrite Hfd; intros Hne; apply Hne).
    assert (∃ f bs, match Stdio.fopen_rb_plus (backing s) with
                    | Some f => Some f
                    | None => Stdio.fopen_wb (backing s)
                    end = Some f ∧ Stdio.content f = Some bs)
      as (f & bs & -> & Hbs).
    { unfold Stdio.fopen_rb_plus, Stdio.fopen_wb.
      destruct (Stdio.content (backing s)) as [bs|]; [by eexists _, bs|].
      destruct Hcan as [Hc | ->]; [done|by eexists _, []]. }
    assert (∀ s', gpNvm_FileDescriptor s' = fd_stream →
              gpNvm_Init s' = Some (GPNVM_ERROR_ALREADY_INITIALIZED, s'))
      as Hagain.
    { intros s' Hst. unfold gpNvm_Init. rewrite Hst. by rewrite decide_True. }
    case_decide; eexists; (split; [reflexivity|]);
      (split; [reflexivity|]); (split; [reflexivity|]);
      (split; [|by apply Hagain]).
    + done.
    + change (Stdio.content f ≠ None). by rewrite Hbs.
Qed.

Lemma init_outcomes_witness :
  gpNvm_Init with_attr1 = Some (GPNVM_ERROR_ALREADY_INITIALIZED, with_attr1)
  ∧ gpNvm_Init (startup (Stdio.mkFile None 0 false []))
    = Some (GPNVM_ERROR_OPENING_FILE, startup (Stdio.mkFile None 0 false []))
  ∧ ∃ s', gpNvm_Init (startup no_file) = Some (GPNVM_OK, s')
      ∧ gpNvm_FileDescriptor s' = fd_stream
      ∧ Stdio.position (backing s') = 0
      ∧ Stdio.content (backing s') ≠ None
      ∧ gpNvm_Init s' = Some (GPNVM_ERROR_ALREADY_INITIALIZED, s').
Proof.
  split; [|split].
  - apply (proj1 (init_outcomes with_attr1)). vm_compute. discriminate.
  - apply (proj1 (proj2 (init_outcomes (startup (Stdio.mkFile None 0 false [])))));
      reflexivity.
  - apply (proj2 (proj2 (init_outcomes (startup no_file)))).
    + reflexivity.
    + right. reflexivity.
Defined.

(** ** Attributes that were never written *)

(** A call for one attribute keeps the index entry of every other. *)
Lemma set_index_other attrId length pValue s r s' id :
  gpNvm_SetAttribute attrId length pValue s = Some (r, s') →
  id ≠ attrId →
  Mem.get (gpNvm_MemoryIndexTable s') id
  = Mem.get (gpNvm_MemoryIndexTable s) id.
Proof.
  intros Hset Hid.
  destruct (set_cases_any _ _ _ _ _ _ Hset)
    as [(_ & _ & ->) | [(_ & _ & _ & ->) | (buf & _ & _ & Hcase)]];
    [done|done|].
  inversion Hcase as [? Hp | new ? Hnew Hp | new ? Hnew Hp | new ? Hnew Hp
                      | new ? Hnew Hp]; subst.
  - by destruct Hp as (off & len & _ & _ & _ & _ & ->).
  - by destruct Hp as (off & _ & _ & _ & _ & ->).
  - by destruct Hp as (off & old & cache & crc & _ & _ & _ & _ & _ & _ & _
                       & _ & ->).
  - destruct Hp as (off & crc & index & cache1 & cache & _ & _ & _ & _ & Hix
                    & _ & _ & _ & ->).
    cbn. by apply (get_set_ne _ _ _ _ _ Hix).
  - by destruct Hp as (off & crc & _ & _ & _ & _ & ->).
Qed.

(** No call turns an initialised component into one that is not. *)
Lemma set_keeps_initialised attrId length pValue s r s' :
  gpNvm_SetAttribute attrId length pValue s = Some (r, s') →
  gpNvm_FileDescriptor s ≠ fd_NULL →
  gpNvm_FileDescriptor s' ≠ fd_NULL.
Proof.
  intros Hset Hfd.
  destruct (set_cases_any _ _ _ _ _ _ Hset)
    as [(_ & _ & ->) | [(_ & _ & _ & ->) | (buf & _ & _ & Hcase)]];
    [done|done|].
  inversion Hcase as [? Hp | new ? Hnew Hp | new ? Hnew Hp | new ? Hnew Hp
                      | new ? Hnew Hp]; subst.
  - by destruct Hp as (off & len & _ & _ & _ & _ & ->).
  - by destruct Hp as (off & _ & _ & _ & _ & ->).
  - by destruct Hp as (off & old & cache & crc & _ & _ & _ & _ & _ & _ & _
                       & _ & ->).
  - by destruct Hp as (off & crc & index & cache1 & cache & _ & _ & _ & _ & _
                       & _ & _ & _ & ->).
  - by destruct Hp as (off & crc & _ & _ & _ & _ & ->).
Qed.



(** ** One attribute and the others *)

(** What [gpNvm_GetAttribute] delivers for [id] depends on the index entry
    of [id], on its CRC entry and on its record only. *)
Lemma get_congr id pLength pValue s s' :
  (gpNvm_FileDescriptor s' = fd_NULL ↔ gpNvm_FileDescriptor s = fd_NULL) →
  Mem.get (gpNvm_MemoryIndexTable s') id
  = Mem.get (gpNvm_MemoryIndexTable s) id →
  Mem.get (gpNvm_AttributesCrcTable s') id
  = Mem.get (gpNvm_AttributesCrcTable s) id →
  (∀ off, Mem.get (gpNvm_MemoryIndexTable s) id = Some off → off ≠ 0xFFFF →
     Mem.get (gpNvm_MemoryCache s') off = Mem.get (gpNvm_MemoryCache s) off
     ∧ ∀ len, Mem.get (gpNvm_MemoryCache s) off = Some len →
         Mem.load (gpNvm_MemoryCache s') (off + 1) len
         = Mem.load (gpNvm_MemoryCache s) (off + 1) len) →
  gpNvm_GetAttribute id pLength pValue s'
  = gpNvm_GetAttribute id pLength pValue s.
Proof.
  intros Hfd Hidx Hcrc Hrec. unfold gpNvm_GetAttribute.
  destruct (decide (gpNvm_FileDescriptor s = fd_NULL)) as [Hnull|Hopen].
  { by rewrite decide_True by (by apply Hfd). }
  rewrite decide_False by (by rewrite Hfd).
  destruct pLength as [len0|], pValue as [buf|]; try done.
  rewrite Hidx, Hcrc.
  destruct (Mem.get (gpNvm_MemoryIndexTable s) id) as [off|] eqn:Hi; [|done].
  cbn [mbind option_bind]. case_decide as Hoff; [done|].
  destruct (Hrec off eq_refl Hoff) as [Hlen Hload]. rewrite Hlen.
  destruct (Mem.get (gpNvm_AttributesCrcTable s) id) as [crc|]; [|done].
  cbn [mbind option_bind].
  destruct (Mem.get (gpNvm_MemoryCache s) off) as [len|]; [|done].
  cbn [mbind option_bind]. by rewrite Hload.
Qed.

(** X6: writing one attribute and reading another.  On a sound store, a
    call of [gpNvm_SetAttribute] for [attrId], whatever its result, never
    changes what [gpNvm_GetAttribute] delivers for another attribute. *)
Theorem set_keeps_other_attributes attrId length buf s r s' id pLength pValue :
  sound s →
  gpNvm_SetAttribute attrId length (Some buf) s = Some (r, s') →
  id ≠ attrId →
  gpNvm_GetAttribute id pLength pValue s'
  = gpNvm_GetAttribute id pLength pValue s.
Proof.
  intros (Hwt & Hrec & Hdisj) Hset Hid.
  destruct (decide (gpNvm_FileDescriptor s = fd_NULL)) as [Hfd|Hfd].
  { unfold gpNvm_SetAttribute in Hset. rewrite decide_True in Hset by done.
    by injection Hset as <- <-. }
  pose proof (set_keeps_initialised _ _ _ _ _ _ Hset Hfd) as Hfd'.
  pose proof (set_index_other _ _ _ _ _ _ id Hset Hid) as Hidx.
  pose proof (set_cases _ _ _ _ _ _ Hset Hfd) as Hcase.
  apply get_congr; [by split|done| |].
  - (* the CRC entry of [id] *)
    inversion Hcase as [? Hp | new ? Hnew Hp | new ? Hnew Hp | new ? Hnew Hp
                        | new ? Hnew Hp]; subst.
    + by destruct Hp as (off & len & _ & _ & _ & _ & ->).
    + by destruct Hp as (off & _ & _ & _ & _ & ->).
    + destruct Hp as (off & old & cache & crc & _ & _ & _ & _ & _ & _ & Hcrc
                      & _ & ->).
      cbn. by apply (get_set_ne _ _ _ _ _ Hcrc).
    + destruct Hp as (off & crc & index & cache1 & cache & _ & Hcrc & _ & _
                      & _ & _ & _ & _ & ->).
      cbn. by apply (get_set_ne _ _ _ _ _ Hcrc).
    + destruct Hp as (off & crc & _ & Hcrc & _ & _ & ->).
      cbn. by apply (get_set_ne _ _ _ _ _ Hcrc).
  - (* the record of [id] *)
    intros e He Hstored.
    destruct (Hrec id e He Hstored) as (len & v & [Hlen_e Hv] & Hbound & _).
    pose proof (well_typed_length_byte s e len Hwt Hlen_e) as Hbyte.
    inversion Hcase as [? Hp | new ? Hnew Hp | new ? Hnew Hp | new ? Hnew Hp
                        | new ? Hnew Hp]; subst.
    + by destruct Hp as (off & len' & _ & _ & _ & _ & ->).
    + by destruct Hp as (off & _ & _ & _ & _ & ->).
    + destruct Hp as (off & old & cache & crc & Hio & Hoff & Hl & _ & _ & Hcp
                      & _ & _ & ->).
      pose proof (load_length _ _ _ _ Hnew) as Hnl. cbn.
      assert (e + 1 + len <= off ∨ off + 1 + length <= e) as Hd.
      { pose proof (well_typed_length_byte s off length Hwt Hl).
        destruct (Hdisj id attrId e off len length Hid He Hstored Hio Hoff
                    Hlen_e Hl); lia. }
      split.
      * apply (get_memcpy_outside _ _ _ _ e Hcp). lia.
      * intros len' Hlen'. assert (len' = len) as -> by congruence.
        apply (load_memcpy_outside _ _ _ _ _ _ Hcp). lia.
    + destruct Hp as (off & crc & index & cache1 & cache & Hio & _ & Hnext
                      & _ & _ & Hc1 & Hcp & _ & ->).
      pose proof (next_offset_bytes_consumed s attrId off Hwt Hio Hnext)
        as Hoff.
      pose proof (load_length _ _ _ _ Hnew) as Hnl. cbn.
      split.
      * rewrite (get_memcpy_outside _ _ _ _ e Hcp) by lia.
        apply (get_set_ne _ _ _ _ _ Hc1). lia.
      * intros len' Hlen'. assert (len' = len) as -> by congruence.
        rewrite (load_memcpy_outside _ _ _ _ (e + 1) len Hcp) by lia.
        apply (load_set_outside _ _ _ _ _ _ Hc1). lia.
    + by destruct Hp as (off & crc & _ & _ & _ & _ & ->).
Qed.

(** The stores of the examples are built from an empty file. *)
Lemma with_attr2_grown : grown with_attr2.
Proof.
  apply (grown_set with_attr1 2 1 attr2 GPNVM_OK with_attr2).
  - apply (grown_set fresh 1 20 attr1 GPNVM_OK with_attr1).
    + apply grown_init.
    + apply (bool_decide_unpack _). vm_compute. exact I.
    + apply (bool_decide_unpack _). vm_compute. exact I.
    + vm_compute. reflexivity.
  - apply (bool_decide_unpack _). vm_compute. exact I.
  - apply (bool_decide_unpack _). vm_compute. exact I.
  - vm_compute. reflexivity.
Qed.

Lemma set_keeps_other_attributes_witness :
  gpNvm_GetAttribute 2 (Some 0) (Some [0]) with_attr1'
  = gpNvm_GetAttribute 2 (Some 0) (Some [0]) with_attr2.
Proof.
  apply (set_keeps_other_attributes 1 20 attr1' with_attr2 GPNVM_OK
           with_attr1' 2 (Some 0) (Some [0])).
  - apply grown_sound, with_attr2_grown.
  - vm_compute. reflexivity.
  - lia.
Defined.

(** ** The checksum detects a damaged byte *)

(** A property of two bytes that holds on the whole table holds for any
    two bytes. *)
Lemma for_all_bytes (P : Z → Z → Prop) :
  Forall (λ x, Forall (P x) (seqZ 0 256)) (seqZ 0 256) →
  ∀ x y, is_UInt8 x → is_UInt8 y → P x y.
Proof.
  intros Htable x y Hx Hy. unfold is_UInt8 in Hx, Hy.
  rewrite Forall_forall in Htable.
  assert (x ∈ seqZ 0 256) as Hxin by (apply elem_of_seqZ; lia).
  specialize (Htable x Hxin). rewrite Forall_forall in Htable.
  apply Htable. apply elem_of_seqZ. lia.
Qed.

Lemma lxor_is_UInt8 x y : is_UInt8 x → is_UInt8 y → is_UInt8 (Z.lxor x y).
Proof.
  revert x y. apply (for_all_bytes (λ x y, is_UInt8 (Z.lxor x y))).
  apply (bool_decide_unpack _). vm_compute. exact I.
Qed.

Lemma crc8_unshift_shift x : is_UInt8 x → crc8_unshift (crc8_shift x) = x.
Proof.
  intros Hx. unfold is_UInt8 in Hx.
  assert (Forall (λ x, crc8_unshift (crc8_shift x) = x) (seqZ 0 256)) as Htable.
  { apply (bool_decide_unpack _). vm_compute. exact I. }
  rewrite Forall_forall in Htable. apply Htable, elem_of_seqZ. lia.
Qed.

Lemma crc8_shift_inj x y :
  is_UInt8 x → is_UInt8 y → crc8_shift x = crc8_shift y → x = y.
Proof.
  intros Hx Hy Heq.
  by rewrite <- (crc8_unshift_shift x), <- (crc8_unshift_shift y), Heq.
Qed.

Lemma iter_crc8_shift_is_UInt8 n x :
  is_UInt8 x → is_UInt8 (Nat.iter n crc8_shift x).
Proof.
  intros Hx. destruct n as [|n]; [done|].
  rewrite Nat.iter_succ. apply crc8_shift_is_UInt8.
Qed.

(** The eight shifts of one turn of the outer loop permute the bytes. *)
Lemma crc8_turn_inj x y :
  is_UInt8 x → is_UInt8 y →
  Nat.iter 8 crc8_shift x = Nat.iter 8 crc8_shift y → x = y.
Proof.
  intros Hx Hy. generalize 8%nat. intros n.
  induction n as [|n IH]; [done|].
  rewrite !Nat.iter_succ. intros Heq. apply IH.
  apply crc8_shift_inj; [by apply iter_crc8_shift_is_UInt8..|done].
Qed.

Lemma crc8_byte_is_UInt8 crc b : is_UInt8 (crc8_byte crc b).
Proof.
  unfold crc8_byte. rewrite Nat.iter_succ. apply crc8_shift_is_UInt8.
Qed.

Lemma crc8_byte_lxor crc b :
  is_UInt8 crc → is_UInt8 b →
  crc8_byte crc b = Nat.iter 8 crc8_shift (Z.lxor crc b).
Proof.
  intros Hc Hb. unfold crc8_byte, to_UInt8.
  pose proof (lxor_is_UInt8 crc b Hc Hb) as Hx. unfold is_UInt8 in Hx.
  by rewrite Z.mod_small.
Qed.

Lemma lxor_cancel_l x y z : Z.lxor x y = Z.lxor x z → y = z.
Proof.
  intros Heq.
  rewrite <- (Z.lxor_0_l y), <- (Z.lxor_0_l z), <- (Z.lxor_nilpotent x).
  by rewrite !Z.lxor_assoc, Heq.
Qed.

Lemma crc8_byte_inj_byte crc b b' :
  is_UInt8 crc → is_UInt8 b → is_UInt8 b' →
  crc8_byte crc b = crc8_byte crc b' → b = b'.
Proof.
  intros Hc Hb Hb'. rewrite !crc8_byte_lxor by done. intros Heq.
  apply crc8_turn_inj in Heq; [|by apply lxor_is_UInt8..].
  by eapply lxor_cancel_l.
Qed.

Lemma crc8_byte_inj_state crc crc' b :
  is_UInt8 crc → is_UInt8 crc' → is_UInt8 b →
  crc8_byte crc b = crc8_byte crc' b → crc = crc'.
Proof.
  intros Hc Hc' Hb. rewrite !crc8_byte_lxor by done. intros Heq.
  apply crc8_turn_inj in Heq; [|by apply lxor_is_UInt8..].
  rewrite (Z.lxor_comm crc), (Z.lxor_comm crc') in Heq.
  by eapply lxor_cancel_l.
Qed.

(** Two runs of the loop over the same bytes end in different states when
    they start in different states. *)
Lemma foldl_crc8_byte_inj data crc crc' :
  Forall is_UInt8 data → is_UInt8 crc → is_UInt8 crc' →
  foldl crc8_byte crc data = foldl crc8_byte crc' data → crc = crc'.
Proof.
  intros Hdata. revert crc crc'.
  induction Hdata as [|b data Hb _ IH]; intros crc crc' Hc Hc' Heq; [done|].
  cbn [foldl] in Heq.
  apply IH in Heq; [|apply crc8_byte_is_UInt8..].
  exact (crc8_byte_inj_state crc crc' b Hc Hc' Hb Heq).
Qed.

(** Replacing one byte of a sequence changes the final state of the loop. *)
Lemma checksum_one_byte pre suf b b' :
  Forall is_UInt8 pre → Forall is_UInt8 suf →
  is_UInt8 b → is_UInt8 b' →
  b ≠ b' →
  gpNvm_CalculateChecksum (pre ++ b :: suf)
  ≠ gpNvm_CalculateChecksum (pre ++ b' :: suf).
Proof.
  intros Hpre Hsuf Hb Hb' Hne Heq.
  unfold gpNvm_CalculateChecksum in Heq.
  rewrite !foldl_app in Heq. cbn [foldl] in Heq.
  apply foldl_crc8_byte_inj in Heq; [|done|apply crc8_byte_is_UInt8..].
  apply crc8_byte_inj_byte in Heq; [done| |done|done].
  apply (checksum_is_UInt8 pre).
Qed.

(** X7: a damaged byte changes the checksum.  Two byte sequences that
    differ in exactly one byte (same bytes before it, same bytes after it)
    never have the same [gpNvm_CalculateChecksum]. *)
Theorem checksum_detects_one_byte pre suf b b' :
  Forall is_UInt8 pre → Forall is_UInt8 suf →
  is_UInt8 b → is_UInt8 b' →
  b ≠ b' →
  gpNvm_CalculateChecksum (pre ++ b :: suf)
  ≠ gpNvm_CalculateChecksum (pre ++ b' :: suf).
Proof.
  intros Hpre Hsuf Hb Hb' Hne Heq.
  unfold gpNvm_CalculateChecksum in Heq.
  rewrite !foldl_app in Heq. cbn [foldl] in Heq.
  (* the states after the differing byte differ, and stay different *)
  apply foldl_crc8_byte_inj in Heq; [|done|apply crc8_byte_is_UInt8..].
  apply crc8_byte_inj_byte in Heq; [done| |done|done].
  apply (checksum_is_UInt8 pre).
Qed.

Lemma checksum_detects_one_byte_witness :
  gpNvm_CalculateChecksum ([0; 1] ++ 0xaa :: [3])
  ≠ gpNvm_CalculateChecksum ([0; 1] ++ 0xab :: [3]).
Proof.
  apply (checksum_detects_one_byte [0; 1] [3] 0xaa 0xab).
  - apply (bool_decide_unpack _). vm_compute. exact I.
  - apply (bool_decide_unpack _). vm_compute. exact I.
  - unfold is_UInt8. lia.
  - unfold is_UInt8. lia.
  - lia.
Defined.

(** The value read from a cache in which one byte of the record was
    replaced. *)
Lemma load_insert_inside (a : list Z) off n p b v :
  Mem.load a off n = Some v →
  off <= p < off + n →
  Mem.load (<[Z.to_nat p := b]> a) off n
  = Some (<[Z.to_nat (p - off) := b]> v).
Proof.
  unfold Mem.load. rewrite length_insert.
  case_decide as Hb; [|done]. intros [= <-] Hp. f_equal.
  rewrite drop_insert_ge by lia. rewrite take_insert_lt by lia.
  do 2 f_equal. lia.
Qed.

(** X8: a damaged value is reported.  If an attribute can be read and one
    byte of its stored value is then replaced by a different byte,
    [gpNvm_GetAttribute] returns [GPNVM_ERROR_CORRUPTED_ATTRIBUTE] and
    gives nothing to the caller. *)
Theorem get_detects_damaged_byte s attrId off len v p b len0 buf :
  readable s attrId off len v →
  Forall is_UInt8 v →
  off + 1 <= p <= off + len →
  is_UInt8 b →
  Mem.get (gpNvm_MemoryCache s) p ≠ Some b →
  gpNvm_GetAttribute attrId (Some len0) (Some buf)
    (with_cache (<[Z.to_nat p := b]> (gpNvm_MemoryCache s)) s)
  = Some (GPNVM_ERROR_CORRUPTED_ATTRIBUTE, Some len0, Some buf).
Proof.
  intros (Hfd & Hidx & Hoff & Hlen & Hv & Hcrc) Hbytes Hp Hb Hdiff.
  pose proof (load_length _ _ _ _ Hv) as Hvl.
  pose proof (get_Some_bounds _ _ _ Hlen) as Hob.
  (* the byte that is replaced *)
  set (k := Z.to_nat (p - (off + 1))).
  assert (∃ b0, v !! k = Some b0 ∧ Mem.get (gpNvm_MemoryCache s) p = Some b0)
    as (b0 & Hk & Hget).
  { unfold Mem.load in Hv. case_decide as Hin; [|done]. injection Hv as <-.
    unfold Mem.get. rewrite decide_True by lia.
    destruct (lookup_lt_is_Some_2 (gpNvm_MemoryCache s) (Z.to_nat p))
      as [b0 Hb0]; [lia|].
    exists b0. split; [|done].
    rewrite lookup_take_lt by (unfold k; lia). rewrite lookup_drop.
    rewrite <- Hb0. f_equal. unfold k. lia. }
  assert (b ≠ b0) as Hne by congruence.
  assert (is_UInt8 b0) as Hb0 by (by eapply Forall_lookup_1).
  unfold gpNvm_GetAttribute. cbn. rewrite decide_False by done.
  rewrite Hidx. cbn [mbind option_bind]. rewrite decide_False by done.
  rewrite Hcrc. cbn [mbind option_bind].
  assert (Mem.get (<[Z.to_nat p := b]> (gpNvm_MemoryCache s)) off = Some len)
    as ->.
  { unfold Mem.get in Hlen |- *. rewrite decide_True in Hlen |- * by lia.
    rewrite list_lookup_insert_ne by lia. done. }
  cbn [mbind option_bind].
  rewrite (load_insert_inside _ _ _ p b v Hv) by lia.
  cbn [mbind option_bind]. fold k.
  rewrite decide_True; [done|].
  rewrite insert_take_drop by (by eapply lookup_lt_Some).
  rewrite <- (take_drop_middle v k b0 Hk) at 3.
  apply checksum_one_byte; try done.
  - by apply Forall_take.
  - by apply Forall_drop.
Qed.

Lemma with_attr2_readable : readable with_attr2 2 21 1 attr2.
Proof.
  split; [vm_compute; discriminate|].
  split; [vm_compute; reflexivity|].
  split; [lia|].
  split; [vm_compute; reflexivity|].
  split; vm_compute; reflexivity.
Qed.

Lemma get_detects_damaged_byte_witness :
  gpNvm_GetAttribute 2 (Some 0) (Some [0])
    (with_cache (<[Z.to_nat 22 := 0xab]> (gpNvm_MemoryCache with_attr2))
       with_attr2)
  = Some (GPNVM_ERROR_CORRUPTED_ATTRIBUTE, Some 0, Some [0]).
Proof.
  apply (get_detects_damaged_byte with_attr2 2 21 1 attr2 22 0xab 0 [0]).
  - exact with_attr2_readable.
  - apply (bool_decide_unpack _). vm_compute. exact I.
  - lia.
  - unfold is_UInt8. lia.
  - vm_compute. discriminate.
Defined.

(** ** After gpNvm_Uninit, in the same run *)



(** ** Reading the file in *)

Lemma init_load_backing s f :
  Stdio.content (backing (init_load s f)) = Stdio.content f
  ∧ Stdio.fwrites (backing (init_load s f)) = Stdio.fwrites f
  ∧ Stdio.position (backing (init_load s f)) = 0.
Proof. repeat split. Qed.

(** X10: gpNvm_Init on a file that is not empty.  When the file holds at
    least 2048 bytes, [gpNvm_Init] returns [GPNVM_OK] and takes the three
    tables from the file as they are: the index table from bytes 0..511
    (two bytes per entry, low byte first), the CRC table from bytes
    512..767 and the data cache from bytes 768..2047.  It checks nothing,
    writes nothing, and leaves the stream at position 0. *)
Theorem init_loads_file s bs :
  gpNvm_FileDescriptor s = fd_NULL →
  Stdio.content (backing s) = Some bs →
  (2048 <= length bs)%nat →
  Z.of_nat (length (gpNvm_MemoryCache s)) = GPNVM_USER_MEMORY_SIZE →
  Z.of_nat (length (gpNvm_MemoryIndexTable s)) = GPNVM_MEMORY_INDEX_TABLE_SIZE →
  Z.of_nat (length (gpNvm_AttributesCrcTable s)) = GPNVM_ATTRIBUTES_CRCS_SIZE →
  ∃ s', gpNvm_Init s = Some (GPNVM_OK, s')
    ∧ gpNvm_FileDescriptor s' = fd_stream
    ∧ gpNvm_MemoryIndexTable s' = Mem.UInt16s_of_bytes (take 512 bs)
    ∧ gpNvm_AttributesCrcTable s' = take 256 (drop 512 bs)
    ∧ gpNvm_MemoryCache s' = take 1280 (drop 768 bs)
    ∧ Stdio.content (backing s') = Some bs
    ∧ Stdio.fwrites (backing s') = Stdio.fwrites (backing s)
    ∧ Stdio.position (backing s') = 0.
Proof.
  intros Hfd Hcont Hsize Hclen Hilen Hrlen.
  rewrite user_memory_size in Hclen. rewrite index_table_size in Hilen.
  rewrite crcs_size in Hrlen.
  unfold gpNvm_Init. rewrite Hfd.
  rewrite decide_False by (intros Hne; by apply Hne).
  unfold Stdio.fopen_rb_plus. rewrite Hcont.
  rewrite decide_False.
  2: { unfold Stdio.ftell, Stdio.fseek_END, Stdio.bytes. cbn. lia. }
  eexists. split; [reflexivity|]. split; [reflexivity|].
  rewrite init_load_index, init_load_crc, init_load_cache.
  destruct (init_load_backing s
              (Stdio.fseek_END
                 (Stdio.mkFile (Some bs) 0 (Stdio.creatable (backing s))
                    (Stdio.fwrites (backing s))))) as (-> & -> & ->).
  unfold Stdio.fseek_END, Stdio.bytes. cbn [Stdio.content default].
  unfold id. rewrite drop_0.
  rewrite !fill_full
    by (rewrite ?bytes_of_UInt16s_length, !length_take, ?length_drop; lia).
  by repeat split.
Qed.

Lemma init_loads_file_witness :
  ∃ s', gpNvm_Init (startup bit_flipped_file) = Some (GPNVM_OK, s')
    ∧ gpNvm_FileDescriptor s' = fd_stream
    ∧ gpNvm_MemoryIndexTable s'
      = Mem.UInt16s_of_bytes (take 512 (Stdio.bytes bit_flipped_file))
    ∧ gpNvm_AttributesCrcTable s'
      = take 256 (drop 512 (Stdio.bytes bit_flipped_file))
    ∧ gpNvm_MemoryCache s'
      = take 1280 (drop 768 (Stdio.bytes bit_flipped_file))
    ∧ Stdio.content (backing s') = Some (Stdio.bytes bit_flipped_file)
    ∧ Stdio.fwrites (backing s')
      = Stdio.fwrites (backing (startup bit_flipped_file))
    ∧ Stdio.position (backing s') = 0.
Proof.
  apply (init_loads_file (startup bit_flipped_file)
           (Stdio.bytes bit_flipped_file)).
  - reflexivity.
  - reflexivity.
  - vm_compute. lia.
  - reflexivity.
  - reflexivity.
  - reflexivity.
Defined.

(** ** Writing the cache into the file *)

(** The first 2048 bytes of a file into which the cache was written. *)
Lemma written_tables s :
  well_typed s →
  take 2048 (written s)
  = Mem.bytes_of_UInt16s (gpNvm_MemoryIndexTable s)
    ++ gpNvm_AttributesCrcTable s ++ gpNvm_MemoryCache s.
Proof.
  intros Hwt.
  rewrite <- (written_index s Hwt), <- (written_crc s Hwt),
    <- (written_cache s Hwt).
  replace (drop 768 (written s)) with (drop 256 (drop 512 (written s)))
    by (by rewrite drop_drop).
  rewrite (take_take_drop (drop 512 (written s)) 256 1280).
  change (256 + 1280)%nat with 1536%nat.
  rewrite (take_take_drop (written s) 512 1536).
  reflexivity.
Qed.

(** A write does not disturb what lies after it. *)
Lemma overwrite_drop_after pos data old n :
  (pos + length data <= n)%nat →
  drop n (Stdio.overwrite pos data old) = drop n old.
Proof.
  intros Hn. apply list_eq. intros i. rewrite !lookup_drop.
  unfold Stdio.overwrite.
  rewrite (app_assoc (take pos old)), (app_assoc (take pos old ++ _)).
  assert (length ((take pos old ++ replicate (pos - length old) 0) ++ data)
          = (pos + length data)%nat) as Hlen.
  { rewrite !length_app, length_take, length_replicate. lia. }
  rewrite lookup_app_r by lia. rewrite Hlen, lookup_drop. f_equal. lia.
Qed.

(** What lies in the file beyond the three tables stays there. *)
Lemma written_tail s :
  well_typed s →
  drop 2048 (written s) = drop 2048 (Stdio.bytes (backing s)).
Proof.
  intros (Hclen & Hilen & Hrlen & _).
  rewrite user_memory_size in Hclen. rewrite index_table_size in Hilen.
  rewrite crcs_size in Hrlen.
  pose proof (bytes_of_UInt16s_length (gpNvm_MemoryIndexTable s)) as Hb.
  unfold written. by rewrite !overwrite_drop_after by lia.
Qed.

Lemma write_cache_log s :
  Stdio.fwrites (write_cache s)
  = [(768, Z.of_nat (length (gpNvm_MemoryCache s)));
     (512, Z.of_nat (length (gpNvm_AttributesCrcTable s)));
     (0, Z.of_nat (length (Mem.bytes_of_UInt16s (gpNvm_MemoryIndexTable s))))]
    ++ Stdio.fwrites (backing s).
Proof. reflexivity. Qed.

(** X11: what gpNvm_Uninit leaves in the file.  On an initialised component
    with its stream open, [gpNvm_Uninit] returns [GPNVM_OK] after exactly
    three writes (512 bytes at 0, 256 at 512, 1280 at 768); the first 2048
    bytes of the file are then the index table, the CRC table and the data
    cache in this order, whatever the file held before, and the bytes of
    the file beyond 2048 are kept.  The tables in memory are not
    changed. *)
Theorem uninit_writes_tables s :
  well_typed s →
  gpNvm_FileDescriptor s = fd_stream →
  ∃ s1, gpNvm_Uninit s = Some (GPNVM_OK, s1)
    ∧ take 2048 (Stdio.bytes (backing s1))
      = Mem.bytes_of_UInt16s (gpNvm_MemoryIndexTable s)
        ++ gpNvm_AttributesCrcTable s ++ gpNvm_MemoryCache s
    ∧ drop 2048 (Stdio.bytes (backing s1))
      = drop 2048 (Stdio.bytes (backing s))
    ∧ Stdio.fwrites (backing s1)
      = [(768, 1280); (512, 256); (0, 512)] ++ Stdio.fwrites (backing s)
    ∧ gpNvm_MemoryCache s1 = gpNvm_MemoryCache s
    ∧ gpNvm_MemoryIndexTable s1 = gpNvm_MemoryIndexTable s
    ∧ gpNvm_AttributesCrcTable s1 = gpNvm_AttributesCrcTable s.
Proof.
  intros Hwt Hfd.
  unfold gpNvm_Uninit, flush. rewrite Hfd.
  rewrite decide_False by done. cbn [mbind option_bind].
  eexists. split; [reflexivity|].
  cbn [backing gpNvm_MemoryCache gpNvm_MemoryIndexTable
       gpNvm_AttributesCrcTable].
  change (Stdio.bytes (write_cache s)) with (written s).
  split; [by apply written_tables|]. split; [by apply written_tail|].
  split; [|done].
  destruct Hwt as (Hclen & Hilen & Hrlen & _).
  rewrite write_cache_log, bytes_of_UInt16s_length.
  rewrite user_memory_size in Hclen. rewrite index_table_size in Hilen.
  rewrite crcs_size in Hrlen.
  rewrite Hclen, Hrlen.
  replace (Z.of_nat (2 * length (gpNvm_MemoryIndexTable s))) with 512 by lia.
  done.
Qed.

Lemma with_attr2_well_typed : well_typed with_attr2.
Proof. apply (bool_decide_unpack _). vm_compute. exact I. Qed.

Lemma uninit_writes_tables_witness :
  ∃ s1, gpNvm_Uninit with_attr2 = Some (GPNVM_OK, s1)
    ∧ take 2048 (Stdio.bytes (backing s1))
      = Mem.bytes_of_UInt16s (gpNvm_MemoryIndexTable with_attr2)
        ++ gpNvm_AttributesCrcTable with_attr2 ++ gpNvm_MemoryCache with_attr2
    ∧ drop 2048 (Stdio.bytes (backing s1))
      = drop 2048 (Stdio.bytes (backing with_attr2))
    ∧ Stdio.fwrites (backing s1)
      = [(768, 1280); (512, 256); (0, 512)]
        ++ Stdio.fwrites (backing with_attr2)
    ∧ gpNvm_MemoryCache s1 = gpNvm_MemoryCache with_attr2
    ∧ gpNvm_MemoryIndexTable s1 = gpNvm_MemoryIndexTable with_attr2
    ∧ gpNvm_AttributesCrcTable s1 = gpNvm_AttributesCrcTable with_attr2.
Proof.
  apply (uninit_writes_tables with_attr2).
  - apply (bool_decide_unpack _). vm_compute. exact I.
  - vm_compute. reflexivity.
Defined.

(** X12: closing and opening again without writing an attribute.  For a
    well-typed store with its stream open, [gpNvm_Uninit] followed, in a new
    run of the program, by [gpNvm_Init] gives back the three tables, so
    that [gpNvm_GetAttribute] answers every request as it did before the
    component was closed. *)
Theorem uninit_then_init s s1 s3 :
  well_typed s →
  gpNvm_Uninit s = Some (GPNVM_OK, s1) →
  starts_on (backing s1) s3 →
  ∃ s4, gpNvm_Init s3 = Some (GPNVM_OK, s4)
    ∧ gpNvm_MemoryCache s4 = gpNvm_MemoryCache s
    ∧ gpNvm_MemoryIndexTable s4 = gpNvm_MemoryIndexTable s
    ∧ gpNvm_AttributesCrcTable s4 = gpNvm_AttributesCrcTable s
    ∧ ∀ id pLength pValue,
        gpNvm_GetAttribute id pLength pValue s4
        = gpNvm_GetAttribute id pLength pValue s.
Proof.
  intros Hwt Hun Hstart.
  assert (gpNvm_FileDescriptor s ≠ fd_NULL) as Hfd.
  { intros Hfd. unfold gpNvm_Uninit in Hun.
    by rewrite decide_True in Hun. }
  destruct (init_after_uninit _ _ Hun) as (_ & Hfile & _).
  assert (starts_on (write_cache s) s3) as Hstart'.
  { destruct Hstart as (Hfd3 & Hcont & Hsizes).
    split; [done|]. split; [|done].
    by rewrite Hcont, Hfile, write_cache_content. }
  destruct (init_reloads s s3 Hwt Hstart')
    as (s4 & Hinit & Hfd4 & Hc & Hi & Hr).
  exists s4. split; [done|]. split; [done|]. split; [done|]. split; [done|].
  intros id pLength pValue. apply get_same_tables; try done.
  by rewrite Hfd4.
Qed.

Lemma uninit_then_init_witness :
  ∃ s4, gpNvm_Init (restart (state_of (gpNvm_Uninit with_attr2)))
        = Some (GPNVM_OK, s4)
    ∧ gpNvm_MemoryCache s4 = gpNvm_MemoryCache with_attr2
    ∧ gpNvm_MemoryIndexTable s4 = gpNvm_MemoryIndexTable with_attr2
    ∧ gpNvm_AttributesCrcTable s4 = gpNvm_AttributesCrcTable with_attr2
    ∧ ∀ id pLength pValue,
        gpNvm_GetAttribute id pLength pValue s4
        = gpNvm_GetAttribute id pLength pValue with_attr2.
Proof.
  apply (uninit_then_init with_attr2 (state_of (gpNvm_Uninit with_attr2))).
  - apply (bool_decide_unpack _). vm_compute. exact I.
  - vm_compute. reflexivity.
  - apply restart_starts_on.
Defined.



(** ** Inserting *)



(** ** The caller's buffer *)

(** X15: no check of the caller's buffer.  [gpNvm_GetAttribute] has no
    knowledge of the size of the buffer behind [pValue]: when the stored
    value is longer than the buffer, the copy runs past its end. *)
Theorem get_overruns_short_buffer s attrId off len v len0 buf :
  readable s attrId off len v →
  (List.length buf < List.length v)%nat →
  gpNvm_GetAttribute attrId (Some len0) (Some buf) s = None.
Proof.
  intros (Hfd & Hidx & Hoff & Hlen & Hv & Hcrc) Hshort.
  unfold gpNvm_GetAttribute. rewrite decide_False by done.
  rewrite Hidx. cbn [mbind option_bind]. rewrite decide_False by done.
  rewrite Hcrc. cbn [mbind option_bind].
  rewrite Hlen. cbn [mbind option_bind].
  rewrite Hv. cbn [mbind option_bind].
  rewrite decide_False by (intros Hne; by apply Hne).
  unfold Mem.memcpy. rewrite decide_False; [done|]. lia.
Qed.

Lemma get_overruns_short_buffer_witness :
  gpNvm_GetAttribute 2 (Some 0) (Some []) with_attr2 = None.
Proof.
  apply (get_overruns_short_buffer with_attr2 2 21 1 attr2 0 []).
  - exact with_attr2_readable.
  - vm_compute. lia.
Defined.

(** ** The space taken by the records *)

Lemma total_nonneg cache index : Forall is_UInt8 cache → 0 <= total cache index.
Proof.
  intros Hbytes. induction index as [|e index IH].
  - by cbn.
  - destruct (decide (e = 0xFFFF)) as [->|Hne].
    + by rewrite total_cons_free.
    + rewrite total_cons_stored by done. unfold record_size.
      destruct (Mem.get cache e) as [len|] eqn:Hlen; simpl default; [|lia].
      unfold Mem.get in Hlen. case_decide; [|done].
      pose proof (Forall_lookup_1 _ _ _ _ Hbytes Hlen) as Hb.
      unfold is_UInt8 in Hb. lia.
Qed.

(** The length bytes of the records are not touched by an update. *)
Lemma update_keeps_length_bytes s attrId length new s' id e :
  sound s →
  set_update attrId length new s s' →
  Z.of_nat (List.length new) = length →
  Mem.get (gpNvm_MemoryIndexTable s) id = Some e → e ≠ 0xFFFF →
  Mem.get (gpNvm_MemoryCache s') e = Mem.get (gpNvm_MemoryCache s) e.
Proof.
  intros (Hwt & Hrec & Hdisj)
    (off & old & cache & crc & Hidx & Hoff & Hl & _ & _ & Hcp & _ & _ & ->)
    Hlen He Hstored.
  cbn. apply (get_memcpy_outside _ _ _ _ e Hcp).
  destruct (decide (id = attrId)) as [->|Hid].
  { assert (e = off) by congruence. lia. }
  destruct (Hrec id e He Hstored) as (len & v & [Hlen_e _] & _).
  pose proof (well_typed_length_byte s e len Hwt Hlen_e).
  destruct (Hdisj id attrId e off len length Hid He Hstored Hidx Hoff Hlen_e Hl);
    lia.
Qed.

(** Nor by an insert, which writes above all of them. *)
Lemma insert_keeps_length_bytes s attrId length new s' id e :
  sound s →
  set_insert attrId length new s s' →
  Mem.get (gpNvm_MemoryIndexTable s) id = Some e → e ≠ 0xFFFF →
  Mem.get (gpNvm_MemoryCache s') e = Mem.get (gpNvm_MemoryCache s) e.
Proof.
  intros (Hwt & Hrec & Hdisj)
    (off & crc & index & cache1 & cache & Hidx & _ & Hnext & _ & _ & Hc1 & Hcp
     & _ & ->) He Hstored.
  pose proof (next_offset_bytes_consumed s attrId off Hwt Hidx Hnext) as Hoff.
  destruct (Hrec id e He Hstored) as (len & v & [Hlen_e _] & Hbound & _).
  pose proof (well_typed_length_byte s e len Hwt Hlen_e).
  cbn. rewrite (get_memcpy_outside _ _ _ _ e Hcp) by lia.
  apply (get_set_ne _ _ _ _ _ Hc1). lia.
Qed.



(** ** Stores built from an empty file *)




(** The loop over the index table neither wraps nor reads outside the
    data cache when the records it meets are in the cache and their sizes
    add up to less than 65536. *)
Lemma foldl_add_record_total cache l a :
  Forall is_UInt8 cache →
  (∀ e, e ∈ l → e ≠ 0xFFFF → is_Some (Mem.get cache e)) →
  0 <= a →
  a + total cache l < 65536 →
  foldl (add_record cache) (Some a) l = Some (a + total cache l).
Proof.
  intros Hbytes. revert a.
  induction l as [|e l IH]; intros a Hin Ha Hfit.
  - cbn. f_equal. lia.
  - assert (∀ e', e' ∈ l → e' ≠ 0xFFFF → is_Some (Mem.get cache e')) as Hin'.
    { intros e' He'. apply Hin. by right. }
    pose proof (total_nonneg cache l Hbytes) as Hpos.
    cbn [foldl]. destruct (decide (e = 0xFFFF)) as [->|Hne].
    + rewrite total_cons_free in *.
      unfold add_record at 2. cbn [mbind option_bind].
      rewrite decide_False by (by intros ?). by apply IH.
    + rewrite total_cons_stored in * by done.
      destruct (Hin e) as [len Hlen]; [by left|done|].
      unfold record_size in *. rewrite Hlen in *. simpl default in *.
      unfold add_record at 2. cbn [mbind option_bind].
      rewrite decide_True by done. rewrite Hlen. cbn [mbind option_bind].
      assert (is_UInt8 len) as Hb.
      { unfold Mem.get in Hlen. case_decide; [|done].
        exact (Forall_lookup_1 _ _ _ _ Hbytes Hlen). }
      unfold is_UInt8 in Hb.
      unfold to_UInt16. rewrite Z.mod_small by lia.
      rewrite IH; [f_equal; lia|done|lia|lia].
Qed.

Lemma next_offset_sound s :
  sound s →
  bytes_consumed s <= GPNVM_USER_MEMORY_SIZE →
  next_offset s = Some (bytes_consumed s).
Proof.
  intros (Hwt & Hrec & _) Hfits.
  pose proof Hwt as (_ & Hilen & _ & Hbytes & _).
  rewrite next_offset_entries by done.
  rewrite user_memory_size in Hfits.
  rewrite foldl_add_record_total; try done.
  - intros e [i Hi]%list_elem_of_lookup_1 Hne.
    destruct (Hrec (Z.of_nat i) e) as (len & v & [Hlen _] & _); [|done|by eexists].
    by rewrite get_lookup.
  - rewrite <- bytes_consumed_total. lia.
Qed.

(** ** When a call is defined *)

(** X16: definedness of gpNvm_SetAttribute.  On an initialised component
    whose store is sound and whose records fit into the data cache, a call
    with an attribute id below 256, a length below 256 and a buffer of at
    least [length] bytes writes outside the data cache exactly when the
    attribute is new, the next free offset is below the size of the data
    cache and the record does not fit behind it.  In every other case the
    call returns, and the result is [GPNVM_ERROR_MEMORY_FULL] exactly when
    the attribute is new and the records fill the data cache to its last
    byte. *)
Theorem set_defined s attrId length buf :
  sound s →
  gpNvm_FileDescriptor s = fd_stream →
  bytes_consumed s <= GPNVM_USER_MEMORY_SIZE →
  0 <= attrId < 256 →
  is_UInt8 length →
  length <= Z.of_nat (List.length buf) →
  (gpNvm_SetAttribute attrId length (Some buf) s = None
   ↔ Mem.get (gpNvm_MemoryIndexTable s) attrId = Some 0xFFFF
     ∧ bytes_consumed s < GPNVM_USER_MEMORY_SIZE
     ∧ GPNVM_USER_MEMORY_SIZE < bytes_consumed s + 1 + length)
  ∧ (∀ r s',
       gpNvm_SetAttribute attrId length (Some buf) s = Some (r, s') →
       (r = GPNVM_ERROR_MEMORY_FULL
        ↔ Mem.get (gpNvm_MemoryIndexTable s) attrId = Some 0xFFFF
          ∧ bytes_consumed s = GPNVM_USER_MEMORY_SIZE)).
Proof.
  intros Hsound Hfd Hfits Hid Hlen Hbuf.
  pose proof Hsound as ((Hclen & Hilen & Hrlen & Hcb & _) & Hrec & _).
  pose proof (total_nonneg _ (gpNvm_MemoryIndexTable s) Hcb) as Hpos.
  rewrite <- bytes_consumed_total in Hpos.
  rewrite user_memory_size in *. rewrite index_table_size in Hilen.
  rewrite crcs_size in Hrlen. unfold is_UInt8 in Hlen.
  assert (∃ e, Mem.get (gpNvm_MemoryIndexTable s) attrId = Some e) as [e He].
  { unfold Mem.get. rewrite decide_True by lia.
    apply lookup_lt_is_Some_2. lia. }
  assert (∃ new, Mem.load buf 0 length = Some new) as [new Hnew].
  { unfold Mem.load. rewrite decide_True by lia. eauto. }
  pose proof (load_length _ _ _ _ Hnew) as Hnlen.
  assert (∃ crc, Mem.set (gpNvm_AttributesCrcTable s) attrId
                   (gpNvm_CalculateChecksum new) = Some crc) as [crc Hcrc].
  { unfold Mem.set. rewrite decide_True by lia. eauto. }
  unfold gpNvm_SetAttribute. rewrite decide_False by (by rewrite Hfd).
  rewrite He. cbn [mbind option_bind].
  destruct (decide (e = 0xFFFF)) as [->|Hne].
  - (* the attribute is new *)
    rewrite decide_False by (by intros ?).
    rewrite Hnew. cbn [mbind option_bind].
    rewrite Hcrc. cbn [mbind option_bind].
    rewrite next_offset_with_crc, next_offset_sound by (by rewrite ?user_memory_size).
    cbn [mbind option_bind]. case_decide as Hfull;
      rewrite user_memory_size in Hfull.
    { split.
      - split; [done|]. intros (_ & ? & _). lia.
      - intros r s' [= <- <-]. split; [|done]. intros _. split; [done|lia]. }
    cbn [with_crc with_index with_cache gpNvm_MemoryIndexTable
         gpNvm_MemoryCache gpNvm_AttributesCrcTable gpNvm_FileDescriptor
         backing].
    unfold Mem.set. rewrite decide_True by lia. cbn [mbind option_bind].
    rewrite decide_True by lia. cbn [mbind option_bind].
    unfold Mem.memcpy. rewrite length_insert.
    case_decide as Hroom.
    + cbn [mbind option_bind]. unfold flush.
      cbn [with_crc with_index with_cache gpNvm_MemoryIndexTable
           gpNvm_MemoryCache gpNvm_AttributesCrcTable gpNvm_FileDescriptor
           backing].
      rewrite Hfd. cbn [mbind option_bind]. split.
      * split; [done|]. intros (_ & _ & ?). lia.
      * intros r s' [= <- _]. split; [done|]. intros [_ ?]. lia.
    + cbn [mbind option_bind]. split.
      * split; [|done]. intros _. split; [done|]. lia.
      * done.
  - (* the attribute is stored *)
    rewrite decide_True by done.
    destruct (Hrec attrId e He Hne) as (len & v & [Hl Hv] & _ & _).
    rewrite Hl. cbn [mbind option_bind].
    case_decide as Hmis.
    { split.
      - split; [done|]. by intros [[= ->] _].
      - intros r s' [= <- <-]. split; [done|]. by intros [[= ->] _]. }
    subst len.
    rewrite Hnew, Hv. cbn [mbind option_bind].
    case_decide as Hsame.
    { split.
      - split; [done|]. by intros [[= ->] _].
      - intros r s' [= <- <-]. split; [done|]. by intros [[= ->] _]. }
    unfold Mem.memcpy. rewrite decide_True.
    2:{ unfold Mem.load in Hv. case_decide; [|done]. lia. }
    cbn [mbind option_bind].
    cbn [with_crc with_index with_cache gpNvm_MemoryIndexTable
         gpNvm_MemoryCache gpNvm_AttributesCrcTable gpNvm_FileDescriptor
         backing].
    rewrite Hcrc. cbn [mbind option_bind]. unfold flush.
    cbn [with_crc with_index with_cache gpNvm_MemoryIndexTable
         gpNvm_MemoryCache gpNvm_AttributesCrcTable gpNvm_FileDescriptor
         backing].
    rewrite Hfd. cbn [mbind option_bind]. split.
    + split; [done|]. by intros [[= ->] _].
    + intros r s' [= <- _]. split; [done|]. by intros [[= ->] _].
Qed.

Lemma block_bytes n : Forall is_UInt8 (block n).
Proof. apply Forall_replicate. unfold is_UInt8. lia. Qed.

Lemma one_byte_left_grown : grown one_byte_left.
Proof.
  destruct filling_run as (H0 & H1 & H2 & H3 & _ & H4).
  assert (is_UInt8 255) as H255 by (unfold is_UInt8; lia).
  assert (is_UInt8 254) as H254 by (unfold is_UInt8; lia).
  pose proof (grown_init (Stdio.mkFile (Some []) 0 true [])) as G.
  fold fresh in G.
  pose proof (grown_set _ _ _ _ _ _ G (block_bytes 255) H255 H0) as G0.
  pose proof (grown_set _ _ _ _ _ _ G0 (block_bytes 255) H255 H1) as G1.
  pose proof (grown_set _ _ _ _ _ _ G1 (block_bytes 255) H255 H2) as G2.
  pose proof (grown_set _ _ _ _ _ _ G2 (block_bytes 255) H255 H3) as G3.
  exact (grown_set _ _ _ _ _ _ G3 (block_bytes 254) H254 H4).
Qed.

Lemma set_defined_witness :
  (gpNvm_SetAttribute 5 1 (Some [0]) one_byte_left = None
   ↔ Mem.get (gpNvm_MemoryIndexTable one_byte_left) 5 = Some 0xFFFF
     ∧ bytes_consumed one_byte_left < GPNVM_USER_MEMORY_SIZE
     ∧ GPNVM_USER_MEMORY_SIZE < bytes_consumed one_byte_left + 1 + 1)
  ∧ (∀ r s',
       gpNvm_SetAttribute 5 1 (Some [0]) one_byte_left = Some (r, s') →
       (r = GPNVM_ERROR_MEMORY_FULL
        ↔ Mem.get (gpNvm_MemoryIndexTable one_byte_left) 5 = Some 0xFFFF
          ∧ bytes_consumed one_byte_left = GPNVM_USER_MEMORY_SIZE)).
Proof.
  apply (set_defined one_byte_left 5 1 [0]).
  - apply grown_sound, one_byte_left_grown.
  - vm_compute. reflexivity.
  - vm_compute. discriminate.
  - lia.
  - unfold is_UInt8. lia.
  - vm_compute. discriminate.
Defined.

(** ** Stores within the data cache *)



(** ** Reading from a store built from an empty file *)



(** ** Records stay where they are *)

(** X19: fixed records.  A call of [gpNvm_SetAttribute] on a sound store,
    whatever its arguments and its result, leaves every stored attribute at
    its offset and with its length byte: records are neither moved nor
    resized nor removed. *)
Theorem record_is_fixed attrId length pValue s r s' id off len :
  sound s →
  gpNvm_SetAttribute attrId length pValue s = Some (r, s') →
  Mem.get (gpNvm_MemoryIndexTable s) id = Some off →
  off ≠ 0xFFFF →
  Mem.get (gpNvm_MemoryCache s) off = Some len →
  Mem.get (gpNvm_MemoryIndexTable s') id = Some off
  ∧ Mem.get (gpNvm_MemoryCache s') off = Some len.
Proof.
  intros Hsound Hset Hidx Hoff Hlen.
  destruct (set_cases_any _ _ _ _ _ _ Hset)
    as [(_ & _ & ->) | [(_ & _ & _ & ->) | (buf & _ & _ & Hcase)]];
    [done|done|].
  inversion Hcase as [? Hp | new ? Hnew Hp | new ? Hnew Hp | new ? Hnew Hp
                      | new ? Hnew Hp]; subst.
  - by destruct Hp as (o & l & _ & _ & _ & _ & ->).
  - by destruct Hp as (o & _ & _ & _ & _ & ->).
  - split.
    + by destruct Hp as (o & old & cache & crc & _ & _ & _ & _ & _ & _ & _
                         & _ & ->).
    + rewrite <- Hlen.
      apply (update_keeps_length_bytes s attrId length new s' id); try done.
      by eapply load_length.
  - split.
    + pose proof Hp as (o & crc & index & cache1 & cache & Hfree & _ & _ & _
                        & Hix & _ & _ & _ & Hs').
      assert (id ≠ attrId) as Hne by (intros ->; congruence).
      rewrite Hs'. cbn. by rewrite (get_set_ne _ _ _ _ _ Hix Hne).
    + rewrite <- Hlen.
      by apply (insert_keeps_length_bytes s attrId length new s' id).
  - by destruct Hp as (o & crc & _ & _ & _ & _ & ->).
Qed.

Lemma record_is_fixed_witness :
  Mem.get (gpNvm_MemoryIndexTable with_attr1') 2 = Some 21
  ∧ Mem.get (gpNvm_MemoryCache with_attr1') 21 = Some 1.
Proof.
  apply (record_is_fixed 1 20 (Some attr1') with_attr2 GPNVM_OK with_attr1'
           2 21 1).
  - apply grown_sound, with_attr2_grown.
  - vm_compute. reflexivity.
  - vm_compute. reflexivity.
  - discriminate.
  - vm_compute. reflexivity.
Defined.

(** ** A file that is too short *)

(** X20: gpNvm_Init on a truncated file.  When the file is not empty but
    ends within the first 512 bytes, [gpNvm_Init] still returns
    [GPNVM_OK] and opens the stream: nothing is read into the CRC table and
    the data cache, which keep the values they had before the call, and
    nothing is written to the file. *)
Theorem init_short_file s bs :
  gpNvm_FileDescriptor s = fd_NULL →
  Stdio.content (backing s) = Some bs →
  (0 < List.length bs <= 512)%nat →
  ∃ s', gpNvm_Init s = Some (GPNVM_OK, s')
    ∧ gpNvm_FileDescriptor s' = fd_stream
    ∧ gpNvm_AttributesCrcTable s' = gpNvm_AttributesCrcTable s
    ∧ gpNvm_MemoryCache s' = gpNvm_MemoryCache s
    ∧ Stdio.content (backing s') = Some bs
    ∧ Stdio.fwrites (backing s') = Stdio.fwrites (backing s).
Proof.
  intros Hfd Hcont Hsize.
  unfold gpNvm_Init. rewrite Hfd.
  rewrite decide_False by (intros Hne; by apply Hne).
  unfold Stdio.fopen_rb_plus. rewrite Hcont.
  rewrite decide_False.
  2: { unfold Stdio.ftell, Stdio.fseek_END, Stdio.bytes. cbn. lia. }
  eexists. split; [reflexivity|]. split; [reflexivity|].
  rewrite init_load_crc, init_load_cache.
  destruct (init_load_backing s
              (Stdio.fseek_END
                 (Stdio.mkFile (Some bs) 0 (Stdio.creatable (backing s))
                    (Stdio.fwrites (backing s))))) as (-> & -> & _).
  unfold Stdio.fseek_END, Stdio.bytes. cbn [Stdio.content default].
  unfold id. rewrite !(drop_ge bs) by lia.
  by repeat split.
Qed.

Lemma init_short_file_witness :
  ∃ s', gpNvm_Init (startup (Stdio.mkFile (Some [0; 0]) 0 true []))
        = Some (GPNVM_OK, s')
    ∧ gpNvm_FileDescriptor s' = fd_stream
    ∧ gpNvm_AttributesCrcTable s'
      = gpNvm_AttributesCrcTable
          (startup (Stdio.mkFile (Some [0; 0]) 0 true []))
    ∧ gpNvm_MemoryCache s'
      = gpNvm_MemoryCache (startup (Stdio.mkFile (Some [0; 0]) 0 true []))
    ∧ Stdio.content (backing s') = Some [0; 0]
    ∧ Stdio.fwrites (backing s')
      = Stdio.fwrites (backing (startup (Stdio.mkFile (Some [0; 0]) 0 true []))).
Proof.
  apply (init_short_file (startup (Stdio.mkFile (Some [0; 0]) 0 true []))
           [0; 0]).
  - reflexivity.
  - reflexivity.
  - vm_compute. lia.
Defined.

